(** * Desire-Hunter: the hunt pipeline of [src/frontend/src/app/api/hunt/route.ts]

    A shallow embedding of the [POST] handler: request validation, the
    query analysis call, the search fan-out, the URL merger, the
    scrape-and-extract fan-out and the aggregation of products, followed
    by the properties the specification states about them.

    Conventions of the model.
    - JavaScript strings are [string]; [length] is [String.length].
    - [relevanceScore] is an integer ([Z]); the handler compares it with 5
      and subtracts two scores in the sort comparator, nothing else.
    - The four external services are a record of oracles.  Each oracle
      receives the history of calls made so far, so that two calls with
      equal arguments may still have different outcomes; [None] stands
      for a rejected promise (a thrown error).
    - Awaited calls are logged in [calls], the mutable [result] object of
      the handler is the other half of the world state.
    - [Promise.all (xs.map (async ...))] is run branch after branch in
      array order.  The branches only share the [errors] array (appended
      to) and their results are assembled in array order; every call of a
      run has a history of its own, so any combination of outcomes of an
      interleaved run is the answer of some oracle here.  The properties
      below never depend on the relative order of two log entries, or of
      two [errors] entries, of different branches. *)

From Stdlib Require Import List String Ascii ZArith Bool Arith Lia.
From Stdlib Require Import Sorting.Sorted Sorting.Permutation.
Import ListNotations.

Local Open Scope string_scope.
Local Open Scope list_scope.

(* ================================================================= *)
(** ** Data model *)

(** [Product], as declared in [page.tsx] (and imported from [@/lib/gemini]). *)
Record Price := mkPrice {
  amount : Z;
  currency : string;
  formatted : string
}.

Record Product := mkProduct {
  name : string;
  brand : string;
  description : string;
  price : option Price;
  officialUrl : option string;
  amazonUrl : option string;
  rakutenUrl : option string;
  relevanceScore : Z;
  reasoning : string
}.

(** Modelled from the spec: [SearchResult] of [@/lib/serper] is not part of
    the sources; the handler reads its [link] only, the remaining provider
    metadata is kept as an opaque list of fields. *)
Record SearchResult := mkSearchResult {
  link : string;
  metadata : list (string * string)
}.

(** Modelled from the spec: the value [analyzeDesire] resolves to
    ([@/lib/gemini]); the handler reads [translatedQueries] only. *)
Record TranslatedQuery := mkQuery {
  query : string;
  language : string
}.

Record Analysis := mkAnalysis {
  translatedQueries : list TranslatedQuery
}.

Record HuntResult := mkHuntResult {
  desire : string;
  products : list Product;
  totalSearched : nat;
  totalScraped : nat;
  errors : list string
}.

(** The parsed request body, and what the handler answers.  The numeric
    payload of [JNum] is never inspected by the handler. *)
#[local] Unset Elimination Schemes.
Inductive JsValue :=
| JNull
| JBool (b : bool)
| JNum (n : Z)
| JStr (s : string)
| JArr (items : list JsValue)
| JObj (fields : list (string * JsValue)).
#[local] Set Elimination Schemes.

(** [json] is the outcome of [await request.json()]: [None] when the body
    is not JSON and the call throws. *)
Record NextRequest := mkRequest {
  json : option JsValue
}.

Inductive Body :=
| ResultBody (r : HuntResult)
| ErrorBody (error : string).

Record NextResponse := mkResponse {
  body : Body;
  status : nat
}.

(* ================================================================= *)
(** ** External services and the world state *)

Inductive Call :=
| CallAnalyze (desire : string)
| CallSearch (query language : string) (num : nat)
| CallScrape (url : string)
| CallExtract (content desire : string).

Inductive Exn :=
| Rejected (c : Call).

Record Services := mkServices {
  analyzeDesire : list Call -> string -> option Analysis;
  search : list Call -> string -> string -> nat -> option (list SearchResult);
  scrape : list Call -> string -> option (option string);
  extractProduct : list Call -> string -> string -> option Product
}.

Record World := mkWorld {
  result : HuntResult;
  calls : list Call
}.

(** A state-and-exception monad: a thrown error keeps the mutations made
    before it. *)
Definition M (A : Type) : Type := World -> (Exn + A) * World.

Definition ret {A} (a : A) : M A := fun w => (inr a, w).

Definition bind {A B} (m : M A) (k : A -> M B) : M B :=
  fun w =>
    match m w with
    | (inl e, w') => (inl e, w')
    | (inr a, w') => k a w'
    end.

Definition try_catch {A} (m : M A) (handler : Exn -> M A) : M A :=
  fun w =>
    match m w with
    | (inl e, w') => handler e w'
    | (inr a, w') => (inr a, w')
    end.

Notation "x <- m ;; k" := (bind m (fun x => k))
  (at level 61, m at next level, right associativity).
Notation "m ;;; k" := (bind m (fun _ => k))
  (at level 61, right associativity).

(** [await service(args)]: the call is logged, the oracle sees the calls
    made before it. *)
Definition await {A} (c : Call) (outcome : list Call -> option A) : M A :=
  fun w =>
    let w' := mkWorld (result w) (calls w ++ [c]) in
    match outcome (calls w) with
    | Some a => (inr a, w')
    | None => (inl (Rejected c), w')
    end.

Definition update (f : HuntResult -> HuntResult) : M unit :=
  fun w => (inr tt, mkWorld (f (result w)) (calls w)).

Definition read {A} (f : HuntResult -> A) : M A :=
  fun w => (inr (f (result w)), w).

Definition set_products (ps : list Product) (r : HuntResult) : HuntResult :=
  mkHuntResult (desire r) ps (totalSearched r) (totalScraped r) (errors r).

Definition set_totalSearched (n : nat) (r : HuntResult) : HuntResult :=
  mkHuntResult (desire r) (products r) n (totalScraped r) (errors r).

Definition set_totalScraped (n : nat) (r : HuntResult) : HuntResult :=
  mkHuntResult (desire r) (products r) (totalSearched r) n (errors r).

Definition push_error (msg : string) (r : HuntResult) : HuntResult :=
  mkHuntResult (desire r) (products r) (totalSearched r) (totalScraped r)
               (errors r ++ [msg]).

Definition push_product (p : Product) (r : HuntResult) : HuntResult :=
  set_products (products r ++ [p]) r.

(** [Promise.all (xs.map f)], branch after branch. *)
Fixpoint promise_all_map {A B} (f : A -> M B) (xs : list A) : M (list B) :=
  match xs with
  | [] => ret []
  | x :: xs' =>
      y <- f x ;;
      ys <- promise_all_map f xs' ;;
      ret (y :: ys)
  end.

(** [for (const x of xs) body x]. *)
Fixpoint for_of {A} (xs : list A) (body : A -> M unit) : M unit :=
  match xs with
  | [] => ret tt
  | x :: xs' => body x ;;; for_of xs' body
  end.

(* ================================================================= *)
(** ** JavaScript built-ins used by the handler *)

(** [String.prototype.toLowerCase] on the ASCII letters. *)
Definition lower_ascii (c : ascii) : ascii :=
  let n := nat_of_ascii c in
  if (65 <=? n)%nat && (n <=? 90)%nat then ascii_of_nat (n + 32) else c.

Fixpoint toLowerCase (s : string) : string :=
  match s with
  | EmptyString => EmptyString
  | String c s' => String (lower_ascii c) (toLowerCase s')
  end.

(** [new Set(xs)] keeps its elements in insertion order; adding an element
    that is already present changes nothing. *)
Definition set_add (s : list string) (x : string) : list string :=
  if existsb (String.eqb x) s then s else s ++ [x].

Definition new_Set (xs : list string) : list string :=
  fold_left set_add xs [].

(** [xs.slice(0, n)]. *)
Definition slice0 {A} (n : nat) (xs : list A) : list A := firstn n xs.

(** [xs.sort(cmp)]: the sort is stable, and with a consistent comparator
    its result is the one of a stable insertion sort; [x] moves past [y]
    only when [cmp x y > 0]. *)
Fixpoint sort_insert {A} (cmp : A -> A -> Z) (x : A) (l : list A) : list A :=
  match l with
  | [] => [x]
  | y :: l' => if (0 <? cmp x y)%Z then y :: sort_insert cmp x l'
               else x :: y :: l'
  end.

Definition sort {A} (cmp : A -> A -> Z) (l : list A) : list A :=
  fold_right (sort_insert cmp) [] l.

(** Property lookup on a parsed JSON object (own properties, keys pairwise
    distinct; no prototype property is called [desire]). *)
Fixpoint get_property (key : string) (fields : list (string * JsValue))
  : option JsValue :=
  match fields with
  | [] => None
  | (k, v) :: fields' => if String.eqb k key then Some v
                         else get_property key fields'
  end.

(** [const { desire } = body]: destructuring [null] throws ([None]); a
    primitive or an array has no [desire] property ([Some None] is
    [undefined]). *)
Definition destructure_desire (body : JsValue) : option (option JsValue) :=
  match body with
  | JNull => None
  | JObj fields => Some (get_property "desire" fields)
  | JBool _ | JNum _ | JStr _ | JArr _ => Some None
  end.

(** [!v] is [negb (js_truthy v)], for [v] a JSON value or [undefined]. *)
Definition js_truthy (v : option JsValue) : bool :=
  match v with
  | None => false
  | Some JNull => false
  | Some (JBool b) => b
  | Some (JNum n) => negb (n =? 0)%Z
  | Some (JStr s) => negb (String.eqb s "")
  | Some (JArr _) => true
  | Some (JObj _) => true
  end.

Definition typeof_is_string (v : option JsValue) : bool :=
  match v with
  | Some (JStr _) => true
  | _ => false
  end.

(* ================================================================= *)
(** ** The handler *)

Definition searchErrorMessage (lang : string) : string :=
  String.append "検索エラー: " lang.

Definition invalid_desire_message : string := "欲求を入力してください".

Definition internal_error_message : string := "内部エラーが発生しました".

(** Lines 45-55: one search branch, with its own [try]/[catch]. *)
Definition searchBranch (svc : Services) (q : TranslatedQuery)
  : M (list SearchResult) :=
  try_catch
    (results <- await (CallSearch (query q) (language q) 3)
                      (fun h => search svc h (query q) (language q) 3) ;;
     ret results)
    (fun _ =>
       update (push_error (searchErrorMessage (language q))) ;;;
       ret []).

(** Lines 68-81: one scrape-and-extract branch, with its own
    [try]/[catch].  [content && content.length > 100]: [null] and the
    empty string are falsy. *)
Definition scrapeBranch (svc : Services) (desire url : string)
  : M (option Product) :=
  try_catch
    (content <- await (CallScrape url) (fun h => scrape svc h url) ;;
     match content with
     | Some text =>
         if negb (String.eqb text "") && (100 <? String.length text)%nat then
           product <- await (CallExtract text desire)
                            (fun h => extractProduct svc h text desire) ;;
           ret (Some product)
         else ret None
     | None => ret None
     end)
    (fun _ => ret None).

(** Lines 90-94: [result.products.some (...)]. *)
Definition same_product (p product : Product) : bool :=
  String.eqb (toLowerCase (name p)) (toLowerCase (name product))
  || match officialUrl p with
     | Some u =>
         negb (String.eqb u "")
         && match officialUrl product with
            | Some u' => String.eqb u u'
            | None => false
            end
     | None => false
     end.

Definition isDuplicate (kept : list Product) (product : Product) : bool :=
  existsb (fun p => same_product p product) kept.

(** Lines 87-100: the body of the filtering loop. *)
Definition keep_product (slot : option Product) : M unit :=
  match slot with
  | Some product =>
      if (5 <=? relevanceScore product)%Z then
        kept <- read products ;;
        if negb (isDuplicate kept product)
        then update (push_product product)
        else ret tt
      else ret tt
  | None => ret tt
  end.

(** Line 103: [(a, b) => b.relevanceScore - a.relevanceScore]. *)
Definition by_score (a b : Product) : Z :=
  (relevanceScore b - relevanceScore a)%Z.

(** The [const] bindings of the handler at its [return]. *)
Record Locals := mkLocals {
  l_analysis : Analysis;
  l_limitedQueries : list TranslatedQuery;
  l_searchResults : list (list SearchResult);
  l_allSearchResults : list SearchResult;
  l_uniqueUrls : list string;
  l_limitedUrls : list string;
  l_products : list (option Product)
}.

Definition searchStage (svc : Services) (queries : list TranslatedQuery)
  : M (list (list SearchResult)) :=
  promise_all_map (searchBranch svc) queries.

Definition scrapeStage (svc : Services) (desire : string) (urls : list string)
  : M (list (option Product)) :=
  promise_all_map (scrapeBranch svc desire) urls.

(** Lines 36-108, run on the freshly created [result]. *)
Definition pipeline (svc : Services) (desire : string) : M Locals :=
  analysis <- await (CallAnalyze desire)
                    (fun h => analyzeDesire svc h desire) ;;
  let limitedQueries := slice0 2 (translatedQueries analysis) in
  searchResults <- searchStage svc limitedQueries ;;
  let allSearchResults := List.concat searchResults in
  update (set_totalSearched (List.length allSearchResults)) ;;;
  let uniqueUrls := new_Set (map link allSearchResults) in
  let limitedUrls := slice0 5 uniqueUrls in
  scraped <- scrapeStage svc desire limitedUrls ;;
  update (set_totalScraped (List.length limitedUrls)) ;;;
  for_of scraped keep_product ;;;
  update (fun r => set_products (sort by_score (products r)) r) ;;;
  update (fun r => set_products (slice0 5 (products r)) r) ;;;
  ret (mkLocals analysis limitedQueries searchResults allSearchResults
                uniqueUrls limitedUrls scraped).

Definition initial_world (desire : string) : World :=
  mkWorld (mkHuntResult desire [] 0 0 []) [].

Definition hunt (svc : Services) (desire : string) : (Exn + Locals) * World :=
  pipeline svc desire (initial_world desire).

Definition bad_request : NextResponse :=
  mkResponse (ErrorBody invalid_desire_message) 400.

Definition internal_error : NextResponse :=
  mkResponse (ErrorBody internal_error_message) 500.

Definition ok (r : HuntResult) : NextResponse :=
  mkResponse (ResultBody r) 200.

(** The handler: the response and the external calls it made. *)
Definition POST (svc : Services) (request : NextRequest)
  : NextResponse * list Call :=
  match json request with
  | None => (internal_error, [])
  | Some parsed =>
      match destructure_desire parsed with
      | None => (internal_error, [])
      | Some d =>
          if negb (js_truthy d) || negb (typeof_is_string d)
          then (bad_request, [])
          else
            match d with
            | Some (JStr desire) =>
                match hunt svc desire with
                | (inr _, w) => (ok (result w), calls w)
                | (inl _, w) => (internal_error, calls w)
                end
            | _ => (bad_request, [])
            end
      end
  end.

(* ================================================================= *)
(** ** Specification-side definitions *)

(** The merger in the words of the specification: every location is kept
    at its first occurrence and its later occurrences are removed. *)
Fixpoint first_occurrences (xs : list string) : list string :=
  match xs with
  | [] => []
  | x :: xs' =>
      x :: filter (fun y => negb (String.eqb y x)) (first_occurrences xs')
  end.

(** [Subseq l1 l2]: [l1] is [l2] with some elements left out, the others
    in the same order. *)
Inductive Subseq {A} : list A -> list A -> Prop :=
| Subseq_nil : Subseq [] []
| Subseq_skip x l1 l2 : Subseq l1 l2 -> Subseq l1 (x :: l2)
| Subseq_cons x l1 l2 : Subseq l1 l2 -> Subseq (x :: l1) (x :: l2).

(** The slots of the scrape stage that hold a product, in candidate order. *)
Fixpoint present {A} (slots : list (option A)) : list A :=
  match slots with
  | [] => []
  | Some p :: slots' => p :: present slots'
  | None :: slots' => present slots'
  end.

(** What one turn of the filtering loop does to [result.products]. *)
Definition keep_step (kept : list Product) (slot : option Product)
  : list Product :=
  match slot with
  | Some product =>
      if (5 <=? relevanceScore product)%Z && negb (isDuplicate kept product)
      then kept ++ [product]
      else kept
  | None => kept
  end.

Definition kept_products (slots : list (option Product)) : list Product :=
  fold_left keep_step slots [].


Definition score_ge (a b : Product) : Prop :=
  (relevanceScore b <= relevanceScore a)%Z.

Definition has_score (s : Z) (p : Product) : bool :=
  (relevanceScore p =? s)%Z.

(** The outcome of the stages as functions of the oracles and of the calls
    made before the stage starts; the [_run] lemmas show that the monadic
    stages compute exactly these. *)

Definition search_call (q : TranslatedQuery) : Call :=
  CallSearch (query q) (language q) 3.

Fixpoint search_outcomes (svc : Services) (qs : list TranslatedQuery)
  (h : list Call) : list (list SearchResult) :=
  match qs with
  | [] => []
  | q :: qs' =>
      match search svc h (query q) (language q) 3 with
      | Some hits => hits
      | None => []
      end :: search_outcomes svc qs' (h ++ [search_call q])
  end.

Fixpoint search_errors (svc : Services) (qs : list TranslatedQuery)
  (h : list Call) : list string :=
  match qs with
  | [] => []
  | q :: qs' =>
      match search svc h (query q) (language q) 3 with
      | Some _ => []
      | None => [searchErrorMessage (language q)]
      end ++ search_errors svc qs' (h ++ [search_call q])
  end.

(** Content the handler passes on to extraction. *)
Definition substantial (text : string) : bool :=
  negb (String.eqb text "") && (100 <? String.length text)%nat.

Definition branch_calls (svc : Services) (desire url : string)
  (h : list Call) : list Call :=
  CallScrape url ::
  match scrape svc h url with
  | Some (Some text) =>
      if substantial text then [CallExtract text desire] else []
  | _ => []
  end.

Definition branch_slot (svc : Services) (desire url : string)
  (h : list Call) : option Product :=
  match scrape svc h url with
  | Some (Some text) =>
      if substantial text
      then extractProduct svc (h ++ [CallScrape url]) text desire
      else None
  | _ => None
  end.

Fixpoint scrape_slots (svc : Services) (desire : string) (urls : list string)
  (h : list Call) : list (option Product) :=
  match urls with
  | [] => []
  | url :: urls' =>
      branch_slot svc desire url h
      :: scrape_slots svc desire urls' (h ++ branch_calls svc desire url h)
  end.

Fixpoint scrape_calls (svc : Services) (desire : string) (urls : list string)
  (h : list Call) : list Call :=
  match urls with
  | [] => []
  | url :: urls' =>
      branch_calls svc desire url h
      ++ scrape_calls svc desire urls' (h ++ branch_calls svc desire url h)
  end.

(** The capped lists, and [result.products] at the [return]. *)
Definition limitedQueries (a : Analysis) : list TranslatedQuery :=
  slice0 2 (translatedQueries a).

Definition limitedUrls (hits : list SearchResult) : list string :=
  slice0 5 (new_Set (map link hits)).

Definition final_products (slots : list (option Product)) : list Product :=
  slice0 5 (sort by_score (kept_products slots)).

(** The bindings and the world at the [return], for a request whose
    analysis call resolved to [a]. *)
Definition run_locals (svc : Services) (d : string) (a : Analysis) : Locals :=
  let h1 := [CallAnalyze d] in
  let qs := limitedQueries a in
  let found := search_outcomes svc qs h1 in
  let hits := List.concat found in
  let h2 := h1 ++ map search_call qs in
  let urls := limitedUrls hits in
  mkLocals a qs found hits (new_Set (map link hits)) urls
           (scrape_slots svc d urls h2).

Definition run_world (svc : Services) (d : string) (a : Analysis) : World :=
  let h1 := [CallAnalyze d] in
  let qs := limitedQueries a in
  let hits := List.concat (search_outcomes svc qs h1) in
  let h2 := h1 ++ map search_call qs in
  let urls := limitedUrls hits in
  mkWorld (mkHuntResult d (final_products (scrape_slots svc d urls h2))
             (List.length hits) (List.length urls) (search_errors svc qs h1))
          (h2 ++ scrape_calls svc d urls h2).

(** The [desire] of a request that passes validation. *)
Definition accepted_desire (request : NextRequest) : option string :=
  match json request with
  | Some parsed =>
      match destructure_desire parsed with
      | Some (Some (JStr d)) => if String.eqb d "" then None else Some d
      | _ => None
      end
  | None => None
  end.

(* ================================================================= *)
(** ** Worked requests *)

(** Services that answer from tables, whatever was called before. *)
Definition table_services (analysis : option Analysis)
  (hits : string -> option (list SearchResult))
  (pages : string -> option (option string))
  (extracted : string -> option Product) : Services :=
  mkServices (fun _ _ => analysis)
             (fun _ _ lang _ => hits lang)
             (fun _ url => pages url)
             (fun _ text _ => extracted text).

Fixpoint filler (n : nat) : string :=
  match n with
  | O => EmptyString
  | S n' => String "x" (filler n')
  end.

Definition hit (url : string) : SearchResult := mkSearchResult url [].

Definition page (url : string) : string := String.append url (filler 120).

Definition item (n : string) (url : option string) (score : Z) : Product :=
  mkProduct n "brand" "description" None url None None score "reasoning".

Definition demo_analysis : Analysis :=
  mkAnalysis [mkQuery "focus aids" "en"; mkQuery "集中 グッズ" "ja";
              mkQuery "Konzentration" "de"].

Definition demo_hits (lang : string) : option (list SearchResult) :=
  if String.eqb lang "en" then Some [hit "u1"; hit "u2"; hit "u1"]
  else if String.eqb lang "ja" then Some [hit "u3"; hit "u4"; hit "u5"]
  else None.

Definition demo_pages (url : string) : option (option string) :=
  if String.eqb url "u3" then None else Some (Some (page url)).

Definition alpha : Product := item "Alpha" (Some "https://alpha.example") 7.
Definition alpha_again : Product := item "ALPHA" None 9.
Definition beta : Product := item "Beta" None 11.
Definition gamma : Product := item "Gamma" None 7.

Definition demo_extracted (text : string) : option Product :=
  if String.prefix "u1" text then Some alpha
  else if String.prefix "u2" text then Some alpha_again
  else if String.prefix "u4" text then Some beta
  else if String.prefix "u5" text then Some gamma
  else None.

Definition demo_services : Services :=
  table_services (Some demo_analysis) demo_hits demo_pages demo_extracted.

Definition demo_request : NextRequest :=
  mkRequest (Some (JObj [("desire", JStr "focus")])).

Definition demo_result : HuntResult :=
  mkHuntResult "focus" [beta; alpha; gamma] 6 5 [].

Definition demo_log : list Call :=
  [CallAnalyze "focus";
   CallSearch "focus aids" "en" 3; CallSearch "集中 グッズ" "ja" 3;
   CallScrape "u1"; CallExtract (page "u1") "focus";
   CallScrape "u2"; CallExtract (page "u2") "focus";
   CallScrape "u3";
   CallScrape "u4"; CallExtract (page "u4") "focus";
   CallScrape "u5"; CallExtract (page "u5") "focus"].

Definition demo_locals : Locals :=
  mkLocals demo_analysis
    [mkQuery "focus aids" "en"; mkQuery "集中 グッズ" "ja"]
    [[hit "u1"; hit "u2"; hit "u1"]; [hit "u3"; hit "u4"; hit "u5"]]
    [hit "u1"; hit "u2"; hit "u1"; hit "u3"; hit "u4"; hit "u5"]
    ["u1"; "u2"; "u3"; "u4"; "u5"]
    ["u1"; "u2"; "u3"; "u4"; "u5"]
    [Some alpha; Some alpha_again; None; Some beta; Some gamma].

(** The scores of the end-to-end scenario of the specification. *)
Definition scenario_slots : list (option Product) :=
  [Some (item "first" None 9); Some (item "second" None 7);
   Some (item "third" None 6); Some (item "fourth" None 4);
   Some (item "fifth" None 8)].

(** The Japanese search fails. *)
Definition hits_en_only (lang : string) : option (list SearchResult) :=
  if String.eqb lang "en" then Some [hit "u1"; hit "u2"; hit "u1"] else None.

Definition services_ja_down : Services :=
  table_services (Some demo_analysis) hits_en_only demo_pages demo_extracted.

(** The analysis service fails. *)
Definition services_analysis_down : Services :=
  table_services None demo_hits demo_pages demo_extracted.



(* ================================================================= *)
(** ** Reading the call log *)

Definition is_analyze (c : Call) : bool :=
  match c with CallAnalyze _ => true | _ => false end.

Definition is_search (c : Call) : bool :=
  match c with CallSearch _ _ _ => true | _ => false end.

Definition is_scrape (c : Call) : bool :=
  match c with CallScrape _ => true | _ => false end.

Definition is_extract (c : Call) : bool :=
  match c with CallExtract _ _ => true | _ => false end.

(** The calls made before search branch [i] starts: the analysis call and
    the search calls of the branches before it. *)
Definition search_history (d : string) (qs : list TranslatedQuery) (i : nat)
  : list Call :=
  CallAnalyze d :: map search_call (firstn i qs).

(* ================================================================= *)
(** ** The page: [handleSubmit] of [src/frontend/src/app/page.tsx] *)

Module Page.

(** The four [useState] cells of [Home].  [result] holds the parsed
    response as it came ([null] is no result). *)
Record State := mkState {
  desire : string;
  isLoading : bool;
  result : option JsValue;
  error : option string
}.

(** What a [throw] or a rejected promise carries, as far as the [catch]
    tells values apart. *)
Inductive Thrown :=
| SyntaxError (message : string)
| OtherError (message : string)
| NotAnError.

(** What the handler reads of the [Response] of [fetch]: [json] and [text]
    are the outcomes of [await response.json()] and
    [await response.text()]. *)
Record Response := mkFetched {
  ok : bool;
  contentType : option string;
  json : Thrown + JsValue;
  text : Thrown + string
}.

(** Parts of the JavaScript engine the handler relies on: the string
    conversion done by [new Error(v)] for a [v] that is not a string, and
    the message of the [TypeError] of a property read on [null]. *)
Record Engine := mkEngine {
  ToString : JsValue -> string;
  nullReadMessage : string
}.

(** [String.prototype.trim] on the ASCII white space. *)
Definition is_white (c : ascii) : bool :=
  let n := nat_of_ascii c in
  ((9 <=? n)%nat && (n <=? 13)%nat) || (n =? 32)%nat.

Fixpoint trimStart (s : string) : string :=
  match s with
  | EmptyString => EmptyString
  | String c s' => if is_white c then trimStart s' else s
  end.

Fixpoint trimEnd (s : string) : string :=
  match s with
  | EmptyString => EmptyString
  | String c s' =>
      match trimEnd s' with
      | EmptyString => if is_white c then EmptyString
                       else String c EmptyString
      | t => String c t
      end
  end.

Definition trim (s : string) : string := trimEnd (trimStart s).

(** [s.includes(part)]. *)
Definition includes (s part : string) : bool :=
  match String.index 0 part s with
  | Some _ => true
  | None => false
  end.

Definition parse_error_message : string :=
  "サーバーからの応答を解析できませんでした。しばらく待ってから再試行してください。".

Definition default_json_error : string := "エラーが発生しました".

Definition default_text_error : string := "サーバーエラーが発生しました".

Definition unexpected_error : string := "予期しないエラーが発生しました".

(** [new Error(v).message]. *)
Definition message_of (engine : Engine) (v : JsValue) : string :=
  match v with
  | JStr s => s
  | _ => ToString engine v
  end.

(** [errorData.error]: reading a property of [null] throws. *)
Definition read_error (engine : Engine) (errorData : JsValue)
  : Thrown + option JsValue :=
  match errorData with
  | JNull => inl (OtherError (nullReadMessage engine))
  | JObj fields => inr (get_property "error" fields)
  | JBool _ | JNum _ | JStr _ | JArr _ => inr None
  end.

(** Lines 44-67: the body of the [try], from the outcome of [fetch] to the
    parsed data or to what is thrown. *)
Definition try_body (engine : Engine) (fetched : Thrown + Response)
  : Thrown + JsValue :=
  match fetched with
  | inl thrown => inl thrown
  | inr response =>
      if negb (ok response) then
        if match contentType response with
           | Some ct => negb (String.eqb ct "")
                        && includes ct "application/json"
           | None => false
           end
        then
          match json response with
          | inl thrown => inl thrown
          | inr errorData =>
              match read_error engine errorData with
              | inl thrown => inl thrown
              | inr field =>
                  inl (OtherError
                         (if js_truthy field
                          then match field with
                               | Some v => message_of engine v
                               | None => default_json_error
                               end
                          else default_json_error))
              end
          end
        else
          match text response with
          | inl thrown => inl thrown
          | inr errorText =>
              inl (OtherError (if String.eqb errorText ""
                               then default_text_error else errorText))
          end
      else json response
  end.

(** The request [fetch] is given: [JSON.stringify({ desire })] as the
    handler of [route.ts] parses it. *)
Definition request_of (d : string) : NextRequest :=
  mkRequest (Some (JObj [("desire", JStr d)])).

(** [setResult(data)]. *)
Definition as_result (data : JsValue) : option JsValue :=
  match data with
  | JNull => None
  | _ => Some data
  end.

(** Lines 36-78: the state once the handler has finished, and the requests
    it sent.  [fetch] answers the request. *)
Definition handleSubmit (engine : Engine)
  (fetch : NextRequest -> Thrown + Response) (st : State)
  : State * list NextRequest :=
  if String.eqb (trim (desire st)) "" then (st, [])
  else
    let request := request_of (desire st) in
    (match try_body engine (fetch request) with
     | inr data => mkState (desire st) false (as_result data) None
     | inl (SyntaxError _) =>
         mkState (desire st) false None (Some parse_error_message)
     | inl (OtherError message) =>
         mkState (desire st) false None (Some message)
     | inl NotAnError =>
         mkState (desire st) false None (Some unexpected_error)
     end,
     [request]).

(** An engine and answers for the worked submissions. *)
Definition demo_engine : Engine :=
  mkEngine (fun _ => "[object Object]")
           "Cannot read properties of null (reading 'error')".

Definition error_response (message : string) : Response :=
  mkFetched false (Some "application/json; charset=utf-8")
            (inr (JObj [("error", JStr message)]))
            (inr "").

Definition broken_response : Response :=
  mkFetched false (Some "application/json")
            (inl (SyntaxError "Unexpected token < in JSON at position 0"))
            (inr "<html>").

Definition gateway_response : Response :=
  mkFetched false (Some "text/plain") (inl (SyntaxError "no JSON"))
            (inr "Gateway Timeout").

Definition data_response : Response :=
  mkFetched true (Some "application/json")
            (inr (JObj [("desire", JStr "focus"); ("products", JArr [])]))
            (inr "").

Definition typed (d : string) : State :=
  mkState d false (Some (JObj [("desire", JStr "earlier")])) None.

End Page.

(* ================================================================= *)
(** ** Lists: subsequences, the insertion-ordered set, the stable sort *)

Section ListFacts.
Context {A : Type}.

Lemma Subseq_refl (l : list A) : Subseq l l.
Proof. induction l; constructor; assumption. Qed.

Lemma Subseq_nil_l (l : list A) : Subseq [] l.
Proof. induction l; constructor; assumption. Qed.

Lemma Subseq_trans (l1 l2 l3 : list A) :
  Subseq l1 l2 -> Subseq l2 l3 -> Subseq l1 l3.
Proof.
  intros H12 H23. revert l1 H12.
  induction H23 as [|x k2 k3 H23 IH|x k2 k3 H23 IH]; intros l0 H12.
  - assumption.
  - constructor. apply IH. assumption.
  - inversion H12; subst.
    + apply Subseq_skip. apply IH. assumption.
    + apply Subseq_cons. apply IH. assumption.
Qed.

Lemma Subseq_app_l (l1 l2 : list A) : Subseq l1 (l1 ++ l2).
Proof.
  induction l1; simpl.
  - apply Subseq_nil_l.
  - apply Subseq_cons. assumption.
Qed.

Lemma Subseq_app (l1 l2 k1 k2 : list A) :
  Subseq l1 k1 -> Subseq l2 k2 -> Subseq (l1 ++ l2) (k1 ++ k2).
Proof.
  intros H1 H2. induction H1; simpl.
  - assumption.
  - apply Subseq_skip. assumption.
  - apply Subseq_cons. assumption.
Qed.

Lemma Subseq_filter (f : A -> bool) (l : list A) : Subseq (filter f l) l.
Proof.
  induction l as [|x l IH]; simpl.
  - constructor.
  - destruct (f x); constructor; assumption.
Qed.

Lemma Subseq_firstn (n : nat) (l : list A) : Subseq (firstn n l) l.
Proof.
  revert n. induction l as [|x l IH]; intros [|n]; simpl.
  - constructor.
  - constructor.
  - apply Subseq_nil_l.
  - apply Subseq_cons. apply IH.
Qed.

Lemma Subseq_In (l1 l2 : list A) (x : A) :
  Subseq l1 l2 -> In x l1 -> In x l2.
Proof.
  induction 1; simpl; intuition.
Qed.

Lemma Subseq_length (l1 l2 : list A) :
  Subseq l1 l2 -> (List.length l1 <= List.length l2)%nat.
Proof.
  induction 1; simpl; lia.
Qed.

Lemma Subseq_Forall (P : A -> Prop) (l1 l2 : list A) :
  Subseq l1 l2 -> Forall P l2 -> Forall P l1.
Proof.
  induction 1; intros HF.
  - constructor.
  - inversion HF; subst. auto.
  - inversion HF; subst. constructor; auto.
Qed.

Lemma filter_filter_ext (f g h : A -> bool) (l : list A) :
  (forall x, f x && g x = h x) ->
  filter f (filter g l) = filter h l.
Proof.
  intros Hfg. induction l as [|x l IH]; simpl.
  - reflexivity.
  - rewrite <- Hfg. destruct (g x); simpl.
    + rewrite andb_true_r. destruct (f x); rewrite IH; reflexivity.
    + rewrite andb_false_r. assumption.
Qed.



Lemma ForallOrdPairs_split (R : A -> A -> Prop) (l1 l2 l3 : list A) (a b : A) :
  ForallOrdPairs R (l1 ++ a :: l2 ++ b :: l3) -> R a b.
Proof.
  induction l1 as [|x l1 IH]; simpl; intros HF.
  - inversion HF as [|? ? Ha _]; subst.
    rewrite Forall_forall in Ha. apply Ha.
    apply in_or_app. right. left. reflexivity.
  - inversion HF; subst. auto.
Qed.
End ListFacts.

(** *** [new Set] against first occurrences *)

Lemma set_add_fold (xs acc : list string) :
  fold_left set_add xs acc
  = acc ++ filter (fun y => negb (existsb (String.eqb y) acc))
                  (first_occurrences xs).
Proof.
  revert acc. induction xs as [|x xs IH]; intros acc; simpl.
  - rewrite app_nil_r. reflexivity.
  - unfold set_add at 2. destruct (existsb (String.eqb x) acc) eqn:Hx; simpl.
    + rewrite IH. f_equal. symmetry. apply filter_filter_ext.
      intros y. destruct (String.eqb y x) eqn:Hyx; simpl.
      * apply String.eqb_eq in Hyx. subst y. rewrite Hx. reflexivity.
      * apply andb_true_r.
    + rewrite IH, <- app_assoc. simpl. f_equal. f_equal.
      symmetry. apply filter_filter_ext.
      intros y. rewrite existsb_app. simpl.
      rewrite orb_false_r, negb_orb. reflexivity.
Qed.

Lemma new_Set_first_occurrences (xs : list string) :
  new_Set xs = first_occurrences xs.
Proof.
  unfold new_Set. rewrite set_add_fold. simpl.
  induction (first_occurrences xs) as [|y l IH]; simpl; congruence.
Qed.

Lemma first_occurrences_In (xs : list string) (x : string) :
  In x (first_occurrences xs) <-> In x xs.
Proof.
  induction xs as [|a xs IH]; simpl.
  - tauto.
  - rewrite filter_In, IH. split.
    + intros [H | [H _]]; auto.
    + intros [H | H]; auto.
      destruct (String.eqb x a) eqn:Hxa.
      * apply String.eqb_eq in Hxa. auto.
      * right. split; [assumption | reflexivity].
Qed.

Lemma first_occurrences_NoDup (xs : list string) :
  NoDup (first_occurrences xs).
Proof.
  induction xs as [|a xs IH]; simpl.
  - constructor.
  - constructor.
    + rewrite filter_In. intros [_ H].
      rewrite String.eqb_refl in H. discriminate.
    + apply NoDup_filter. assumption.
Qed.

Lemma first_occurrences_Subseq (xs : list string) :
  Subseq (first_occurrences xs) xs.
Proof.
  induction xs as [|a xs IH]; simpl.
  - constructor.
  - apply Subseq_cons.
    eapply Subseq_trans; [apply Subseq_filter | exact IH].
Qed.

(** *** The stable sort *)

Section Sort.
Context {A : Type} (cmp : A -> A -> Z).

Lemma sort_insert_perm (x : A) (l : list A) :
  Permutation (sort_insert cmp x l) (x :: l).
Proof.
  induction l as [|y l IH]; simpl.
  - apply Permutation_refl.
  - destruct (0 <? cmp x y)%Z.
    + eapply perm_trans; [apply perm_skip, IH | apply perm_swap].
    + apply Permutation_refl.
Qed.

Lemma sort_perm (l : list A) : Permutation (sort cmp l) l.
Proof.
  induction l as [|x l IH]; simpl.
  - constructor.
  - eapply perm_trans; [apply sort_insert_perm | apply perm_skip, IH].
Qed.

Lemma sort_length (l : list A) : List.length (sort cmp l) = List.length l.
Proof. apply Permutation_length, sort_perm. Qed.

(** An element only moves past elements that a filter separating
    comparator classes rejects together with it or keeps without it. *)
Lemma sort_insert_filter (f : A -> bool) (x : A) (l : list A) :
  (forall y, (0 < cmp x y)%Z -> f x = true -> f y = false) ->
  filter f (sort_insert cmp x l) = filter f (x :: l).
Proof.
  intros Hf. induction l as [|y l IH]; simpl.
  - reflexivity.
  - destruct (0 <? cmp x y)%Z eqn:Hc; simpl.
    + apply Z.ltb_lt in Hc. simpl in IH. rewrite IH.
      destruct (f x) eqn:Hx.
      * rewrite (Hf y Hc eq_refl). reflexivity.
      * reflexivity.
    + reflexivity.
Qed.

Lemma sort_filter (f : A -> bool) (l : list A) :
  (forall x y, (0 < cmp x y)%Z -> f x = true -> f y = false) ->
  filter f (sort cmp l) = filter f l.
Proof.
  intros Hf. induction l as [|x l IH]; simpl.
  - reflexivity.
  - rewrite sort_insert_filter by (intros y; apply Hf).
    simpl. rewrite IH. reflexivity.
Qed.


End Sort.

Lemma sort_insert_by_score_sorted (x : Product) (l : list Product) :
  StronglySorted score_ge l ->
  StronglySorted score_ge (sort_insert by_score x l).
Proof.
  induction 1 as [|y l Hl IH Hy]; simpl.
  - constructor; constructor.
  - destruct (0 <? by_score x y)%Z eqn:Hc.
    + apply Z.ltb_lt in Hc. constructor; [assumption|].
      eapply Permutation_Forall;
        [apply Permutation_sym, sort_insert_perm|].
      constructor; [|assumption].
      unfold score_ge, by_score in *. lia.
    + apply Z.ltb_ge in Hc. constructor.
      * constructor; assumption.
      * constructor.
        -- unfold score_ge, by_score in *. lia.
        -- eapply Forall_impl; [|exact Hy].
           intros a Ha. unfold score_ge, by_score in *. lia.
Qed.

Lemma sort_by_score_sorted (l : list Product) :
  StronglySorted score_ge (sort by_score l).
Proof.
  induction l as [|x l IH]; simpl.
  - constructor.
  - apply sort_insert_by_score_sorted. assumption.
Qed.

Lemma sort_by_score_stable (s : Z) (l : list Product) :
  filter (has_score s) (sort by_score l) = filter (has_score s) l.
Proof.
  apply sort_filter. intros x y Hc Hx.
  unfold has_score, by_score in *.
  apply Z.eqb_eq in Hx. apply Z.eqb_neq. lia.
Qed.

Lemma StronglySorted_firstn {A} (R : A -> A -> Prop) (n : nat) (l : list A) :
  StronglySorted R l -> StronglySorted R (firstn n l).
Proof.
  intros H. revert n. induction H as [|x l Hl IH Hx]; intros [|n]; simpl.
  - constructor.
  - constructor.
  - constructor.
  - constructor; [apply IH|].
    eapply Subseq_Forall; [apply Subseq_firstn | exact Hx].
Qed.

(* ================================================================= *)
(** ** What each stage computes *)

Lemma searchBranch_run (svc : Services) (q : TranslatedQuery) (w : World) :
  searchBranch svc q w =
  match search svc (calls w) (query q) (language q) 3 with
  | Some hits => (inr hits, mkWorld (result w) (calls w ++ [search_call q]))
  | None =>
      (inr [], mkWorld (push_error (searchErrorMessage (language q)) (result w))
                       (calls w ++ [search_call q]))
  end.
Proof.
  unfold searchBranch, try_catch, bind, await, update, ret, search_call.
  destruct (search svc (calls w) (query q) (language q) 3); reflexivity.
Qed.

Lemma searchStage_run (svc : Services) (qs : list TranslatedQuery) (w : World) :
  searchStage svc qs w =
  (inr (search_outcomes svc qs (calls w)),
   mkWorld (mkHuntResult (desire (result w)) (products (result w))
              (totalSearched (result w)) (totalScraped (result w))
              (errors (result w) ++ search_errors svc qs (calls w)))
           (calls w ++ map search_call qs)).
Proof.
  unfold searchStage. revert w.
  induction qs as [|q qs IH]; intros [[d ps ns nc es] h]; simpl.
  - unfold ret. rewrite !app_nil_r. reflexivity.
  - unfold bind at 1. rewrite searchBranch_run. simpl.
    destruct (search svc h (query q) (language q) 3) as [hits|];
      unfold bind at 1; rewrite IH; simpl; unfold ret;
      rewrite <- !app_assoc; reflexivity.
Qed.

Lemma scrapeBranch_run (svc : Services) (desire url : string) (w : World) :
  scrapeBranch svc desire url w =
  (inr (branch_slot svc desire url (calls w)),
   mkWorld (result w) (calls w ++ branch_calls svc desire url (calls w))).
Proof.
  unfold scrapeBranch, try_catch, bind, await, ret, branch_slot, branch_calls,
    substantial.
  destruct (scrape svc (calls w) url) as [[text|]|]; simpl; try reflexivity.
  destruct (negb (String.eqb text "") && (100 <? String.length text)%nat);
    simpl; [|reflexivity].
  destruct (extractProduct svc (calls w ++ [CallScrape url]) text desire);
    rewrite <- app_assoc; reflexivity.
Qed.

Lemma scrapeStage_run (svc : Services) (desire : string) (urls : list string)
  (w : World) :
  scrapeStage svc desire urls w =
  (inr (scrape_slots svc desire urls (calls w)),
   mkWorld (result w) (calls w ++ scrape_calls svc desire urls (calls w))).
Proof.
  unfold scrapeStage. revert w.
  induction urls as [|url urls IH]; intros [r h]; simpl.
  - unfold ret. rewrite app_nil_r. reflexivity.
  - unfold bind at 1. rewrite scrapeBranch_run. simpl.
    unfold bind at 1. rewrite IH. simpl. unfold ret.
    rewrite <- app_assoc. reflexivity.
Qed.

Lemma for_of_keep_product_run (slots : list (option Product)) (w : World) :
  for_of slots keep_product w =
  (inr tt,
   mkWorld (set_products (fold_left keep_step slots (products (result w)))
                         (result w))
           (calls w)).
Proof.
  revert w. induction slots as [|slot slots IH]; intros [[d ps ns nc es] h].
  - reflexivity.
  - simpl. unfold bind at 1.
    destruct slot as [p|]; simpl.
    + destruct (5 <=? relevanceScore p)%Z; simpl.
      * unfold bind at 1, read. simpl.
        destruct (isDuplicate ps p); simpl; rewrite IH; reflexivity.
      * rewrite IH. reflexivity.
    + rewrite IH. reflexivity.
Qed.

(** The whole pipeline, once the analysis call has succeeded. *)
Lemma hunt_run (svc : Services) (d : string) (a : Analysis) :
  analyzeDesire svc [] d = Some a ->
  hunt svc d = (inr (run_locals svc d a), run_world svc d a).
Proof.
  intros Ha.
  unfold hunt, pipeline, initial_world, run_locals, run_world.
  unfold bind at 1. unfold await. simpl. rewrite Ha.
  unfold bind at 1. rewrite searchStage_run. simpl.
  unfold bind at 1. unfold update at 1. simpl.
  unfold bind at 1. rewrite scrapeStage_run. simpl.
  unfold bind at 1. unfold update at 1. simpl.
  unfold bind at 1. rewrite for_of_keep_product_run. simpl.
  reflexivity.
Qed.

Lemma hunt_fatal (svc : Services) (d : string) :
  analyzeDesire svc [] d = None ->
  hunt svc d = (inl (Rejected (CallAnalyze d)),
                mkWorld (mkHuntResult d [] 0 0 []) [CallAnalyze d]).
Proof.
  intros Ha. unfold hunt, pipeline, initial_world.
  unfold bind at 1. unfold await. simpl. rewrite Ha. reflexivity.
Qed.

(* ================================================================= *)
(** ** The filtering loop *)





Lemma keep_step_extends (kept : list Product) (slot : option Product) :
  exists rest,
    keep_step kept slot = kept ++ rest
    /\ Subseq rest (present [slot])
    /\ Forall (fun p => (5 <= relevanceScore p)%Z) rest.
Proof.
  destruct slot as [p|]; simpl.
  - destruct (5 <=? relevanceScore p)%Z eqn:Hs; simpl.
    + destruct (isDuplicate kept p); simpl.
      * exists []. rewrite app_nil_r.
        repeat split; [apply Subseq_nil_l | constructor].
      * exists [p]. repeat split; [apply Subseq_refl|].
        constructor; [apply Z.leb_le; assumption | constructor].
    + exists []. rewrite app_nil_r.
      repeat split; [apply Subseq_nil_l | constructor].
  - exists []. rewrite app_nil_r. repeat split; constructor.
Qed.

Lemma present_cons {A} (slot : option A) (slots : list (option A)) :
  present (slot :: slots) = present [slot] ++ present slots.
Proof. destruct slot; reflexivity. Qed.

Lemma present_app {A} (l1 l2 : list (option A)) :
  present (l1 ++ l2) = present l1 ++ present l2.
Proof.
  induction l1 as [|slot l1 IH]; simpl.
  - reflexivity.
  - destruct slot; simpl; rewrite IH; reflexivity.
Qed.

Lemma present_length {A} (slots : list (option A)) :
  (List.length (present slots) <= List.length slots)%nat.
Proof.
  induction slots as [|[p|] slots IH]; simpl; lia.
Qed.

Lemma keep_fold_extends (slots : list (option Product)) (kept : list Product) :
  exists rest,
    fold_left keep_step slots kept = kept ++ rest
    /\ Subseq rest (present slots)
    /\ Forall (fun p => (5 <= relevanceScore p)%Z) rest.
Proof.
  revert kept. induction slots as [|slot slots IH]; intros kept.
  - exists []. simpl. rewrite app_nil_r. repeat split; constructor.
  - simpl fold_left.
    destruct (keep_step_extends kept slot) as (r1 & E1 & S1 & F1).
    destruct (IH (keep_step kept slot)) as (r2 & E2 & S2 & F2).
    exists (r1 ++ r2). rewrite E2, E1, <- app_assoc. split; [reflexivity|].
    split.
    + rewrite present_cons. apply Subseq_app; assumption.
    + apply Forall_app. split; assumption.
Qed.

Lemma kept_products_Subseq (slots : list (option Product)) :
  Subseq (kept_products slots) (present slots).
Proof.
  destruct (keep_fold_extends slots []) as (rest & E & S & _).
  unfold kept_products. rewrite E. exact S.
Qed.

Lemma kept_products_score (slots : list (option Product)) :
  Forall (fun p => (5 <= relevanceScore p)%Z) (kept_products slots).
Proof.
  destruct (keep_fold_extends slots []) as (rest & E & _ & F).
  unfold kept_products. rewrite E. exact F.
Qed.

Lemma kept_products_length (slots : list (option Product)) :
  (List.length (kept_products slots) <= List.length slots)%nat.
Proof.
  pose proof (Subseq_length _ _ (kept_products_Subseq slots)).
  pose proof (present_length slots). lia.
Qed.





(** With at most five candidates the final [slice] drops nothing. *)
Lemma final_products_perm (slots : list (option Product)) :
  (List.length slots <= 5)%nat ->
  Permutation (final_products slots) (kept_products slots).
Proof.
  intros H. unfold final_products, slice0.
  rewrite firstn_all2.
  - apply sort_perm.
  - rewrite sort_length. pose proof (kept_products_length slots). lia.
Qed.

Lemma final_products_Subseq_sorted (slots : list (option Product)) :
  Subseq (final_products slots) (sort by_score (kept_products slots)).
Proof. apply Subseq_firstn. Qed.

Lemma scrape_slots_length (svc : Services) (d : string) (urls : list string)
  (h : list Call) :
  List.length (scrape_slots svc d urls h) = List.length urls.
Proof.
  revert h. induction urls as [|u urls IH]; intros h; simpl.
  - reflexivity.
  - rewrite IH. reflexivity.
Qed.

Lemma limitedUrls_length (hits : list SearchResult) :
  (List.length (limitedUrls hits) <= 5)%nat.
Proof. unfold limitedUrls, slice0. apply firstn_le_length. Qed.

(* ================================================================= *)
(** ** The handler around the pipeline *)

Lemma accepted_desire_inv (request : NextRequest) (d : string) :
  accepted_desire request = Some d ->
  exists parsed,
    json request = Some parsed
    /\ destructure_desire parsed = Some (Some (JStr d))
    /\ d <> "".
Proof.
  unfold accepted_desire. intros H.
  destruct (json request) as [parsed|]; [|discriminate].
  exists parsed. split; [reflexivity|].
  destruct (destructure_desire parsed) as [[v|]|]; try discriminate.
  destruct v; try discriminate.
  destruct (String.eqb s "") eqn:E; [discriminate|].
  inversion H; subst. split; [reflexivity|].
  apply String.eqb_neq. assumption.
Qed.

Lemma POST_accepted (svc : Services) (request : NextRequest) (d : string) :
  accepted_desire request = Some d ->
  POST svc request =
  match hunt svc d with
  | (inr _, w) => (ok (result w), calls w)
  | (inl _, w) => (internal_error, calls w)
  end.
Proof.
  intros H. destruct (accepted_desire_inv _ _ H) as (parsed & Hj & Hd & Hne).
  unfold POST. rewrite Hj, Hd. simpl.
  apply String.eqb_neq in Hne. rewrite Hne. reflexivity.
Qed.

Lemma POST_not_accepted (svc : Services) (request : NextRequest) :
  accepted_desire request = None ->
  POST svc request = (bad_request, [])
  \/ POST svc request = (internal_error, []).
Proof.
  unfold accepted_desire, POST.
  destruct (json request) as [parsed|]; [|right; reflexivity].
  destruct (destructure_desire parsed) as [[v|]|];
    [|left; reflexivity|right; reflexivity].
  destruct v; simpl; try (rewrite ?orb_true_r; left; reflexivity).
  destruct (String.eqb s ""); [left; reflexivity | discriminate].
Qed.

Lemma POST_result_inv (svc : Services) (request : NextRequest)
  (resp : NextResponse) (log : list Call) (r : HuntResult) :
  POST svc request = (resp, log) -> body resp = ResultBody r ->
  exists d a,
    accepted_desire request = Some d
    /\ analyzeDesire svc [] d = Some a
    /\ resp = ok r
    /\ run_world svc d a = mkWorld r log
    /\ hunt svc d = (inr (run_locals svc d a), mkWorld r log).
Proof.
  intros HP Hb.
  destruct (accepted_desire request) as [d|] eqn:Hacc.
  - rewrite (POST_accepted _ _ _ Hacc) in HP.
    destruct (analyzeDesire svc [] d) as [a|] eqn:Ha.
    + pose proof (hunt_run _ _ _ Ha) as Hh. rewrite Hh in HP.
      inversion HP; subst. simpl in Hb. inversion Hb; subst.
      exists d, a. repeat split; assumption.
    + rewrite (hunt_fatal _ _ Ha) in HP. inversion HP; subst. discriminate.
  - destruct (POST_not_accepted svc _ Hacc) as [E|E];
      rewrite E in HP; inversion HP; subst; discriminate.
Qed.

Lemma run_slots_length (svc : Services) (d : string) (a : Analysis) :
  (List.length (l_products (run_locals svc d a)) <= 5)%nat.
Proof.
  unfold run_locals. simpl. rewrite scrape_slots_length.
  apply limitedUrls_length.
Qed.

Lemma run_products (svc : Services) (d : string) (a : Analysis) :
  products (result (run_world svc d a))
  = final_products (l_products (run_locals svc d a)).
Proof. reflexivity. Qed.

Lemma final_products_full (slots : list (option Product)) :
  (List.length slots <= 5)%nat ->
  final_products slots = sort by_score (kept_products slots).
Proof.
  intros H. unfold final_products, slice0. apply firstn_all2.
  rewrite sort_length. pose proof (kept_products_length slots). lia.
Qed.

Example scenario_scores :
  map relevanceScore (final_products scenario_slots) = [9; 8; 7; 6]%Z.
Proof. reflexivity. Qed.

Example stable_on_ties :
  sort by_score [gamma; beta; alpha] = [beta; gamma; alpha].
Proof. reflexivity. Qed.

Example set_keeps_insertion_order :
  new_Set ["b"; "a"; "b"; "c"; "a"] = ["b"; "a"; "c"].
Proof. reflexivity. Qed.

Lemma demo_run : POST demo_services demo_request = (ok demo_result, demo_log).
Proof. vm_compute. reflexivity. Qed.

Lemma demo_hunt :
  hunt demo_services "focus" = (inr demo_locals, mkWorld demo_result demo_log).
Proof. vm_compute. reflexivity. Qed.

(* ================================================================= *)
(** ** Properties of the returned products *)

(** C1.  Whatever the request and whatever the services answer, the
    [products] of a returned [HuntResult] are sorted by [relevanceScore]
    in descending order and are at most 5; products of equal score stand
    in candidate order: for every score, the products of that score are,
    in the same order, those of a sequence [kept] obtained from the scraped
    slots by leaving some out. *)
Theorem products_sorted_stable_top5 (svc : Services) (request : NextRequest)
  (resp : NextResponse) (log : list Call) (r : HuntResult) :
  POST svc request = (resp, log) -> body resp = ResultBody r ->
  StronglySorted score_ge (products r)
  /\ (List.length (products r) <= 5)%nat
  /\ exists d locals kept,
       accepted_desire request = Some d
       /\ hunt svc d = (inr locals, mkWorld r log)
       /\ Subseq kept (present (l_products locals))
       /\ forall s, filter (has_score s) (products r)
                    = filter (has_score s) kept.
Proof.
  intros HP Hb.
  destruct (POST_result_inv _ _ _ _ _ HP Hb) as (d & a & Hacc & Ha & _ & Hw & Hh).
  assert (Hps : products r = final_products (l_products (run_locals svc d a))).
  { rewrite <- run_products, Hw. reflexivity. }
  rewrite Hps. split; [|split].
  - unfold final_products, slice0.
    apply StronglySorted_firstn, sort_by_score_sorted.
  - unfold final_products, slice0. apply firstn_le_length.
  - exists d, (run_locals svc d a),
      (kept_products (l_products (run_locals svc d a))).
    repeat split; try assumption.
    + apply kept_products_Subseq.
    + intros s. rewrite final_products_full by apply run_slots_length.
      apply sort_by_score_stable.
Qed.

Lemma products_sorted_stable_top5_demo :
  POST demo_services demo_request = (ok demo_result, demo_log)
  /\ StronglySorted score_ge [beta; alpha; gamma]
  /\ (List.length [beta; alpha; gamma] <= 5)%nat.
Proof.
  split; [vm_compute; reflexivity|].
  destruct (products_sorted_stable_top5 demo_services demo_request
              (ok demo_result) demo_log demo_result) as (Hs & Hl & _).
  - vm_compute. reflexivity.
  - reflexivity.
  - split; [exact Hs | exact Hl].
Defined.

(** C6.  Every product of a returned [HuntResult] has a [relevanceScore]
    of at least 5; a product whose score is below 5 is never in it. *)
Theorem products_score_at_least_5 (svc : Services) (request : NextRequest)
  (resp : NextResponse) (log : list Call) (r : HuntResult) :
  POST svc request = (resp, log) -> body resp = ResultBody r ->
  Forall (fun p => (5 <= relevanceScore p)%Z) (products r)
  /\ forall p, (relevanceScore p < 5)%Z -> ~ In p (products r).
Proof.
  intros HP Hb.
  destruct (POST_result_inv _ _ _ _ _ HP Hb) as (d & a & _ & _ & _ & Hw & _).
  assert (HF : Forall (fun p => (5 <= relevanceScore p)%Z) (products r)).
  { replace (products r)
      with (final_products (l_products (run_locals svc d a)))
      by (rewrite <- run_products, Hw; reflexivity).
    eapply Subseq_Forall; [apply final_products_Subseq_sorted|].
    eapply Permutation_Forall;
      [apply Permutation_sym, sort_perm | apply kept_products_score]. }
  split; [exact HF|].
  intros p Hlow Hin. rewrite Forall_forall in HF.
  specialize (HF p Hin). lia.
Qed.

Lemma products_score_at_least_5_demo :
  POST demo_services demo_request = (ok demo_result, demo_log)
  /\ Forall (fun p => (5 <= relevanceScore p)%Z) [beta; alpha; gamma].
Proof.
  split; [vm_compute; reflexivity|].
  apply (products_score_at_least_5 demo_services demo_request
           (ok demo_result) demo_log demo_result).
  - vm_compute. reflexivity.
  - reflexivity.
Defined.





(* ================================================================= *)
(** ** The merger *)

Lemma hunt_inv (svc : Services) (d : string) (locals : Locals) (w : World) :
  hunt svc d = (inr locals, w) ->
  exists a,
    analyzeDesire svc [] d = Some a
    /\ locals = run_locals svc d a
    /\ w = run_world svc d a.
Proof.
  intros H. destruct (analyzeDesire svc [] d) as [a|] eqn:Ha.
  - rewrite (hunt_run _ _ _ Ha) in H. inversion H; subst.
    exists a. repeat split.
  - rewrite (hunt_fatal _ _ Ha) in H. discriminate.
Qed.

(** C3.  The candidate locations are the links of the search hits, each
    kept at its first occurrence only and in arrival order, cut to the
    first 5; hits for the locations [a; b; a; c] give [a; b; c]; and this
    is the list the handler scrapes. *)
Theorem merger_keeps_first_occurrences :
  (forall hits,
      limitedUrls hits = firstn 5 (first_occurrences (map link hits)))
  /\ (forall a b c ma mb ma' mc,
         a <> b -> a <> c -> b <> c ->
         limitedUrls [mkSearchResult a ma; mkSearchResult b mb;
                      mkSearchResult a ma'; mkSearchResult c mc]
         = [a; b; c])
  /\ (forall svc d locals w,
         hunt svc d = (inr locals, w) ->
         l_allSearchResults locals = List.concat (l_searchResults locals)
         /\ l_limitedUrls locals = limitedUrls (l_allSearchResults locals)).
Proof.
  assert (H1 : forall hits,
             limitedUrls hits = firstn 5 (first_occurrences (map link hits))).
  { intros hits. unfold limitedUrls, slice0.
    rewrite new_Set_first_occurrences. reflexivity. }
  split; [exact H1|]. split.
  - intros a b c ma mb ma' mc Hab Hac Hbc. rewrite H1.
    assert (Eab : String.eqb a b = false) by (apply String.eqb_neq; congruence).
    assert (Eba : String.eqb b a = false) by (apply String.eqb_neq; congruence).
    assert (Eac : String.eqb a c = false) by (apply String.eqb_neq; congruence).
    assert (Eca : String.eqb c a = false) by (apply String.eqb_neq; congruence).
    assert (Ebc : String.eqb b c = false) by (apply String.eqb_neq; congruence).
    assert (Ecb : String.eqb c b = false) by (apply String.eqb_neq; congruence).
    simpl.
    repeat (progress (rewrite ?String.eqb_refl, ?Eab, ?Eba, ?Eac, ?Eca,
                        ?Ebc, ?Ecb; simpl)).
    reflexivity.
  - intros svc d locals w H.
    destruct (hunt_inv _ _ _ _ H) as (a & _ & -> & _).
    split; reflexivity.
Qed.

Lemma merger_keeps_first_occurrences_demo :
  limitedUrls [hit "A"; hit "B"; hit "A"; hit "C"] = ["A"; "B"; "C"]
  /\ l_limitedUrls demo_locals = limitedUrls (l_allSearchResults demo_locals).
Proof.
  destruct merger_keeps_first_occurrences as (_ & Habc & Hrun).
  split.
  - apply (Habc "A" "B" "C" [] [] [] []); discriminate.
  - apply (Hrun demo_services "focus" demo_locals
             (mkWorld demo_result demo_log)).
    vm_compute. reflexivity.
Defined.

(* ================================================================= *)
(** ** Failures *)

(** C4.  When exactly one of the two search branches fails, the handler
    still answers 200; [errors] holds one entry, which names the language
    of the failed branch; the hits are those of the other branch; and
    [totalSearched] is their number. *)
Theorem one_search_branch_fails (svc : Services) (request : NextRequest)
  (d : string) (a : Analysis) (q1 q2 failed : TranslatedQuery)
  (hits : list SearchResult) :
  accepted_desire request = Some d ->
  analyzeDesire svc [] d = Some a ->
  limitedQueries a = [q1; q2] ->
  ((search svc [CallAnalyze d] (query q1) (language q1) 3 = None
    /\ search svc [CallAnalyze d; search_call q1]
              (query q2) (language q2) 3 = Some hits
    /\ failed = q1)
   \/ (search svc [CallAnalyze d] (query q1) (language q1) 3 = Some hits
       /\ search svc [CallAnalyze d; search_call q1]
                 (query q2) (language q2) 3 = None
       /\ failed = q2)) ->
  exists r log locals,
    POST svc request = (ok r, log)
    /\ hunt svc d = (inr locals, mkWorld r log)
    /\ errors r = [String.append "検索エラー: " (language failed)]
    /\ l_allSearchResults locals = hits
    /\ totalSearched r = List.length hits.
Proof.
  intros Hacc Ha Hqs Hcase.
  exists (result (run_world svc d a)), (calls (run_world svc d a)),
    (run_locals svc d a).
  rewrite (POST_accepted _ _ _ Hacc), (hunt_run _ _ _ Ha).
  split; [reflexivity|]. split; [reflexivity|].
  unfold run_world, run_locals. rewrite Hqs. simpl.
  destruct Hcase as [(H1 & H2 & ->) | (H1 & H2 & ->)];
    rewrite H1, H2; simpl; rewrite ?app_nil_r; repeat split.
Qed.

Lemma one_search_branch_fails_demo :
  exists r log locals,
    POST services_ja_down demo_request = (ok r, log)
    /\ hunt services_ja_down "focus" = (inr locals, mkWorld r log)
    /\ errors r = ["検索エラー: ja"]
    /\ l_allSearchResults locals = [hit "u1"; hit "u2"; hit "u1"]
    /\ totalSearched r = 3%nat.
Proof.
  apply (one_search_branch_fails services_ja_down demo_request "focus"
           demo_analysis (mkQuery "focus aids" "en")
           (mkQuery "集中 グッズ" "ja") (mkQuery "集中 グッズ" "ja")
           [hit "u1"; hit "u2"; hit "u1"]).
  - vm_compute. reflexivity.
  - reflexivity.
  - reflexivity.
  - right. repeat split.
Defined.

(** C5.  When the analysis call fails the handler answers with the generic
    server error (status 500), and the analysis call is the only external
    call made: nothing is searched, nothing is scraped. *)
Theorem analysis_failure_is_fatal (svc : Services) (request : NextRequest)
  (d : string) :
  accepted_desire request = Some d ->
  analyzeDesire svc [] d = None ->
  POST svc request
  = (mkResponse (ErrorBody "内部エラーが発生しました") 500, [CallAnalyze d]).
Proof.
  intros Hacc Ha.
  rewrite (POST_accepted _ _ _ Hacc), (hunt_fatal _ _ Ha). reflexivity.
Qed.

Lemma analysis_failure_is_fatal_demo :
  POST services_analysis_down demo_request
  = (mkResponse (ErrorBody "内部エラーが発生しました") 500,
     [CallAnalyze "focus"]).
Proof.
  apply (analysis_failure_is_fatal services_analysis_down demo_request "focus").
  - vm_compute. reflexivity.
  - reflexivity.
Defined.



(** A request that is not accepted never reaches a service, also when its
    body is [null] or is not JSON and the handler answers 500. *)
Lemma rejected_request_makes_no_call (svc : Services) (request : NextRequest) :
  accepted_desire request = None -> snd (POST svc request) = [].
Proof.
  intros H. destruct (POST_not_accepted svc _ H) as [E|E];
    rewrite E; reflexivity.
Qed.

Lemma null_body_is_server_error (svc : Services) :
  POST svc (mkRequest (Some JNull)) = (internal_error, []).
Proof. reflexivity. Qed.

(* ================================================================= *)
(** ** The scrape-and-extract branches *)

Lemma substantial_length (text : string) :
  substantial text = (100 <? String.length text)%nat.
Proof.
  unfold substantial. destruct text; reflexivity.
Qed.








(* ================================================================= *)
(** ** The handler as a whole: answers and external calls *)

Lemma POST_ok_run (svc : Services) (request : NextRequest) (r : HuntResult)
  (log : list Call) :
  POST svc request = (ok r, log) ->
  exists d a,
    accepted_desire request = Some d
    /\ analyzeDesire svc [] d = Some a
    /\ run_world svc d a = mkWorld r log.
Proof.
  intros HP.
  destruct (POST_result_inv _ _ _ _ r HP eq_refl) as (d & a & H1 & H2 & _ & H3 & _).
  exists d, a. repeat split; assumption.
Qed.

Lemma run_calls (svc : Services) (d : string) (a : Analysis) :
  calls (run_world svc d a)
  = CallAnalyze d
    :: map search_call (limitedQueries a)
    ++ scrape_calls svc d (l_limitedUrls (run_locals svc d a))
         (CallAnalyze d :: map search_call (limitedQueries a)).
Proof. reflexivity. Qed.

Lemma search_calls_filter (f : Call -> bool) (b : bool)
  (qs : list TranslatedQuery) :
  (forall q, f (search_call q) = b) ->
  filter f (map search_call qs) = if b then map search_call qs else [].
Proof.
  intros Hf. induction qs as [|q qs IH]; simpl.
  - destruct b; reflexivity.
  - rewrite Hf, IH. destruct b; reflexivity.
Qed.

Lemma branch_calls_cases (svc : Services) (d url : string) (h : list Call) :
  branch_calls svc d url h = [CallScrape url]
  \/ exists text,
       branch_calls svc d url h = [CallScrape url; CallExtract text d]
       /\ scrape svc h url = Some (Some text)
       /\ (100 < String.length text)%nat.
Proof.
  unfold branch_calls.
  destruct (scrape svc h url) as [[text|]|]; try (left; reflexivity).
  destruct (substantial text) eqn:Hs; [|left; reflexivity].
  right. exists text. repeat split.
  rewrite substantial_length in Hs. apply Nat.ltb_lt. assumption.
Qed.

Lemma scrape_calls_scrapes (svc : Services) (d : string) (urls : list string)
  (h : list Call) :
  filter is_scrape (scrape_calls svc d urls h) = map CallScrape urls.
Proof.
  revert h. induction urls as [|url urls IH]; intros h;
    cbn [scrape_calls map].
  - reflexivity.
  - rewrite filter_app, IH.
    destruct (branch_calls_cases svc d url h) as [E | (text & E & _)];
      rewrite E; reflexivity.
Qed.

Lemma scrape_calls_no_search (svc : Services) (d : string)
  (urls : list string) (h : list Call) :
  filter is_search (scrape_calls svc d urls h) = []
  /\ filter is_analyze (scrape_calls svc d urls h) = [].
Proof.
  revert h. induction urls as [|url urls IH]; intros h; cbn [scrape_calls].
  - split; reflexivity.
  - rewrite !filter_app. destruct (IH (h ++ branch_calls svc d url h)) as [-> ->].
    destruct (branch_calls_cases svc d url h) as [E | (text & E & _)];
      rewrite E; split; reflexivity.
Qed.


Lemma scrape_calls_length (svc : Services) (d : string) (urls : list string)
  (h : list Call) :
  (List.length (filter is_extract (scrape_calls svc d urls h))
   <= List.length urls)%nat
  /\ (List.length (scrape_calls svc d urls h) <= 2 * List.length urls)%nat.
Proof.
  revert h. induction urls as [|url urls IH]; intros h; cbn [scrape_calls].
  - simpl. split; lia.
  - rewrite filter_app, !length_app.
    destruct (IH (h ++ branch_calls svc d url h)) as [H1 H2].
    revert H1 H2.
    destruct (branch_calls_cases svc d url h) as [E | (text & E & _)];
      rewrite E; simpl; intros H1 H2; split; lia.
Qed.

Lemma Subseq_NoDup {A} (l1 l2 : list A) :
  Subseq l1 l2 -> NoDup l2 -> NoDup l1.
Proof.
  induction 1 as [|x l1 l2 H IH|x l1 l2 H IH]; intros HN.
  - constructor.
  - inversion HN; subst. auto.
  - inversion HN; subst. constructor; [|auto].
    intros Hin. apply (Subseq_In _ _ x H) in Hin. contradiction.
Qed.

Lemma limitedUrls_Subseq (hits : list SearchResult) :
  Subseq (limitedUrls hits) (map link hits).
Proof.
  unfold limitedUrls, slice0. rewrite new_Set_first_occurrences.
  eapply Subseq_trans; [apply Subseq_firstn | apply first_occurrences_Subseq].
Qed.

Lemma limitedUrls_NoDup (hits : list SearchResult) :
  NoDup (limitedUrls hits).
Proof.
  unfold limitedUrls, slice0. rewrite new_Set_first_occurrences.
  eapply Subseq_NoDup; [apply Subseq_firstn | apply first_occurrences_NoDup].
Qed.

(** The handler answers 200 exactly when the request passes validation and
    the analysis call succeeds; the search, scrape and extraction services
    cannot make it fail. *)
Theorem POST_answers_200_iff (svc : Services) (request : NextRequest) :
  status (fst (POST svc request)) = 200%nat
  <-> exists d a,
        accepted_desire request = Some d
        /\ analyzeDesire svc [] d = Some a.
Proof.
  split.
  - intros Hst.
    destruct (accepted_desire request) as [d|] eqn:Hacc.
    + rewrite (POST_accepted _ _ _ Hacc) in Hst.
      destruct (analyzeDesire svc [] d) as [a|] eqn:Ha.
      * exists d, a. split; [reflexivity | exact Ha].
      * rewrite (hunt_fatal _ _ Ha) in Hst. discriminate.
    + destruct (POST_not_accepted svc _ Hacc) as [E|E];
        rewrite E in Hst; discriminate.
  - intros (d & a & Hacc & Ha).
    rewrite (POST_accepted _ _ _ Hacc), (hunt_run _ _ _ Ha). reflexivity.
Qed.

(** The handler answers 500 exactly when the body cannot be read (it is
    not JSON, or it is [null]) or the analysis call fails; when the body
    cannot be read no service is called. *)
Theorem POST_answers_500_iff (svc : Services) (request : NextRequest) :
  (status (fst (POST svc request)) = 500%nat
   <-> json request = None
       \/ json request = Some JNull
       \/ exists d, accepted_desire request = Some d
                    /\ analyzeDesire svc [] d = None)
  /\ (json request = None
      \/ json request = Some JNull ->
      POST svc request = (internal_error, [])).
Proof.
  split; [split|].
  - intros Hst.
    destruct (accepted_desire request) as [d|] eqn:Hacc.
    + right. right. exists d. split; [reflexivity|].
      destruct (analyzeDesire svc [] d) as [a|] eqn:Ha; [|reflexivity].
      rewrite (POST_accepted _ _ _ Hacc), (hunt_run _ _ _ Ha) in Hst.
      discriminate.
    + unfold POST in Hst. unfold accepted_desire in Hacc.
      destruct (json request) as [parsed|]; [|left; reflexivity].
      destruct parsed; try (right; left; reflexivity); exfalso;
        simpl in Hst, Hacc.
      1-4: discriminate.
      destruct (get_property "desire" fields) as [[| | |s| |]|];
        simpl in Hst; rewrite ?orb_true_r in Hst; try discriminate.
      destruct (String.eqb s ""); simpl in Hst; discriminate.
  - intros [Hj | [Hj | (d & Hacc & Ha)]].
    + unfold POST. rewrite Hj. reflexivity.
    + unfold POST. rewrite Hj. reflexivity.
    + rewrite (POST_accepted _ _ _ Hacc), (hunt_fatal _ _ Ha). reflexivity.
  - intros [Hj | Hj]; unfold POST; rewrite Hj; reflexivity.
Qed.

Lemma POST_answers_500_iff_demo :
  POST demo_services (mkRequest None) = (internal_error, [])
  /\ POST demo_services (mkRequest (Some JNull)) = (internal_error, []).
Proof.
  split.
  - apply (proj2 (POST_answers_500_iff demo_services (mkRequest None))).
    left. reflexivity.
  - apply (proj2 (POST_answers_500_iff demo_services (mkRequest (Some JNull)))).
    right. reflexivity.
Defined.

Lemma run_result_log (svc : Services) (d : string) (a : Analysis)
  (r : HuntResult) (log : list Call) :
  run_world svc d a = mkWorld r log ->
  r = result (run_world svc d a) /\ log = calls (run_world svc d a).
Proof. intros H. rewrite H. split; reflexivity. Qed.

(** A non-empty string [desire] of the body reaches the analysis service
    as it is (it is not trimmed), in the first call and in no other
    analysis call, and it is the [desire] of a returned result. *)
Theorem desire_passed_on_unchanged (svc : Services) (request : NextRequest)
  (fields : list (string * JsValue)) (d : string) :
  json request = Some (JObj fields) ->
  get_property "desire" fields = Some (JStr d) ->
  d <> "" ->
  exists rest,
    snd (POST svc request) = CallAnalyze d :: rest
    /\ filter is_analyze rest = []
    /\ forall r, fst (POST svc request) = ok r -> desire r = d.
Proof.
  intros Hj Hf Hne.
  assert (Hacc : accepted_desire request = Some d).
  { unfold accepted_desire. rewrite Hj. simpl. rewrite Hf.
    apply String.eqb_neq in Hne. rewrite Hne. reflexivity. }
  rewrite (POST_accepted _ _ _ Hacc).
  destruct (analyzeDesire svc [] d) as [a|] eqn:Ha.
  - rewrite (hunt_run _ _ _ Ha). cbn [fst snd]. rewrite run_calls.
    eexists. split; [reflexivity|]. split.
    + rewrite filter_app, (search_calls_filter is_analyze false) by reflexivity.
      apply (proj2 (scrape_calls_no_search _ _ _ _)).
    + intros r Hr. inversion Hr. reflexivity.
  - rewrite (hunt_fatal _ _ Ha). exists []. repeat split.
    intros r Hr. discriminate.
Qed.

Lemma desire_passed_on_unchanged_demo :
  exists rest,
    snd (POST demo_services
           (mkRequest (Some (JObj [("lang", JStr "en");
                                   ("desire", JStr " focus ")]))))
    = CallAnalyze " focus " :: rest
    /\ filter is_analyze rest = [].
Proof.
  destruct (desire_passed_on_unchanged demo_services
              (mkRequest (Some (JObj [("lang", JStr "en");
                                      ("desire", JStr " focus ")])))
              [("lang", JStr "en"); ("desire", JStr " focus ")] " focus ")
    as (rest & H1 & H2 & _).
  - reflexivity.
  - reflexivity.
  - discriminate.
  - exists rest. split; assumption.
Defined.

(** The searches of a successful request are those of the first two
    translated queries, in their order and each with limit 3; further
    queries are never searched. *)
Theorem searches_are_first_two_queries (svc : Services)
  (request : NextRequest) (r : HuntResult) (log : list Call) :
  POST svc request = (ok r, log) ->
  exists d a,
    accepted_desire request = Some d
    /\ analyzeDesire svc [] d = Some a
    /\ filter is_search log
       = map (fun q => CallSearch (query q) (language q) 3)
             (firstn 2 (translatedQueries a))
    /\ (List.length (filter is_search log) <= 2)%nat.
Proof.
  intros HP. destruct (POST_ok_run _ _ _ _ HP) as (d & a & Hacc & Ha & Hw).
  destruct (run_result_log _ _ _ _ _ Hw) as [_ ->].
  exists d, a. split; [assumption|]. split; [assumption|].
  assert (E : filter is_search (calls (run_world svc d a))
              = map search_call (limitedQueries a)).
  { rewrite run_calls. cbn [filter is_search]. rewrite filter_app.
    rewrite (search_calls_filter is_search true) by reflexivity.
    rewrite (proj1 (scrape_calls_no_search _ _ _ _)). apply app_nil_r. }
  rewrite E. split; [reflexivity|].
  rewrite length_map. unfold limitedQueries, slice0. apply firstn_le_length.
Qed.

Lemma searches_are_first_two_queries_demo :
  exists d a,
    accepted_desire demo_request = Some d
    /\ analyzeDesire demo_services [] d = Some a
    /\ filter is_search demo_log
       = map (fun q => CallSearch (query q) (language q) 3)
             (firstn 2 (translatedQueries a))
    /\ (List.length (filter is_search demo_log) <= 2)%nat.
Proof.
  apply (searches_are_first_two_queries demo_services demo_request
           demo_result demo_log).
  vm_compute. reflexivity.
Defined.

(** The scrapes of a successful request are those of the candidate
    locations, in candidate order.  The candidates are pairwise distinct,
    each is the link of a search hit, and there are at most 5 of them and
    no more than there are hits. *)
Theorem scrapes_are_the_candidates (svc : Services) (request : NextRequest)
  (r : HuntResult) (log : list Call) :
  POST svc request = (ok r, log) ->
  exists d locals,
    accepted_desire request = Some d
    /\ hunt svc d = (inr locals, mkWorld r log)
    /\ filter is_scrape log = map CallScrape (l_limitedUrls locals)
    /\ NoDup (l_limitedUrls locals)
    /\ (forall url, In url (l_limitedUrls locals) ->
          exists h, In h (l_allSearchResults locals) /\ link h = url)
    /\ totalSearched r = List.length (l_allSearchResults locals)
    /\ (totalScraped r <= 5)%nat
    /\ (totalScraped r <= totalSearched r)%nat.
Proof.
  intros HP. destruct (POST_ok_run _ _ _ _ HP) as (d & a & Hacc & Ha & Hw).
  pose proof (hunt_run _ _ _ Ha) as Hh. rewrite Hw in Hh.
  destruct (run_result_log _ _ _ _ _ Hw) as [-> ->].
  exists d, (run_locals svc d a).
  split; [assumption|]. split; [assumption|]. split.
  { rewrite run_calls. cbn [filter is_scrape]. rewrite filter_app.
    rewrite (search_calls_filter is_scrape false) by reflexivity.
    apply scrape_calls_scrapes. }
  split; [apply limitedUrls_NoDup|]. split.
  { intros url Hin.
    apply (Subseq_In _ _ url (limitedUrls_Subseq _)) in Hin.
    apply in_map_iff in Hin. destruct Hin as (h & Hl & Hh'). eauto. }
  split; [reflexivity|]. split.
  { apply limitedUrls_length. }
  { cbn. pose proof (Subseq_length _ _
      (limitedUrls_Subseq (List.concat (search_outcomes svc (limitedQueries a)
                                          [CallAnalyze d])))) as Hl.
    rewrite length_map in Hl. exact Hl. }
Qed.

Lemma scrapes_are_the_candidates_demo :
  filter is_scrape demo_log
  = map CallScrape ["u1"; "u2"; "u3"; "u4"; "u5"]
  /\ NoDup (l_limitedUrls demo_locals).
Proof.
  destruct (scrapes_are_the_candidates demo_services demo_request
              demo_result demo_log)
    as (d & locals & Hacc & Hh & Hs & Hn & _).
  - vm_compute. reflexivity.
  - vm_compute in Hacc. inversion Hacc; subst d.
    rewrite demo_hunt in Hh. inversion Hh; subst locals.
    split; assumption.
Defined.



(** Whatever the request and the services, the handler makes at most 13
    external calls: one analysis, two searches, five scrapes and five
    extractions. *)
Theorem at_most_13_external_calls :
  (forall svc request, (List.length (snd (POST svc request)) <= 13)%nat)
  /\ (exists svc request, List.length (snd (POST svc request)) = 13%nat).
Proof.
  split.
  2:{ exists (table_services
                (Some demo_analysis)
                (fun lang => if String.eqb lang "en"
                             then Some [hit "u1"; hit "u2"; hit "u3"]
                             else Some [hit "u4"; hit "u5"; hit "u6"])
                (fun url => Some (Some (page url)))
                (fun _ => Some beta)),
        demo_request.
      vm_compute. reflexivity. }
  intros svc request.
  destruct (accepted_desire request) as [d|] eqn:Hacc.
  - rewrite (POST_accepted _ _ _ Hacc).
    destruct (analyzeDesire svc [] d) as [a|] eqn:Ha.
    + rewrite (hunt_run _ _ _ Ha). cbn [snd]. rewrite run_calls.
      cbn [List.length]. rewrite length_app, length_map.
      pose proof (proj2 (scrape_calls_length svc d
                           (l_limitedUrls (run_locals svc d a))
                           (CallAnalyze d :: map search_call (limitedQueries a))))
        as Hs.
      pose proof (limitedUrls_length (l_allSearchResults (run_locals svc d a)))
        as Hu.
      assert (Hq : (List.length (limitedQueries a) <= 2)%nat)
        by (unfold limitedQueries, slice0; apply firstn_le_length).
      change (l_limitedUrls (run_locals svc d a))
        with (limitedUrls (l_allSearchResults (run_locals svc d a))) in *.
      lia.
    + rewrite (hunt_fatal _ _ Ha). simpl. lia.
  - rewrite (rejected_request_makes_no_call _ _ Hacc). simpl. lia.
Qed.

(* ================================================================= *)
(** ** The search fan-out, branch by branch *)

Lemma search_outcomes_length (svc : Services) (qs : list TranslatedQuery)
  (h : list Call) :
  List.length (search_outcomes svc qs h) = List.length qs.
Proof.
  revert h. induction qs as [|q qs IH]; intros h; simpl.
  - reflexivity.
  - rewrite IH. reflexivity.
Qed.

Lemma search_outcomes_nth (svc : Services) (qs : list TranslatedQuery)
  (h : list Call) (i : nat) (q : TranslatedQuery) :
  nth_error qs i = Some q ->
  nth_error (search_outcomes svc qs h) i
  = Some match search svc (h ++ map search_call (firstn i qs))
                 (query q) (language q) 3 with
         | Some hits => hits
         | None => []
         end.
Proof.
  revert h i. induction qs as [|q0 qs IH]; intros h [|i] Hi; simpl in Hi.
  - discriminate.
  - discriminate.
  - inversion Hi; subst. simpl. rewrite app_nil_r. reflexivity.
  - cbn [search_outcomes nth_error firstn map].
    rewrite (IH _ _ Hi), <- app_assoc. reflexivity.
Qed.

Lemma search_errors_In (svc : Services) (qs : list TranslatedQuery)
  (h : list Call) (e : string) :
  In e (search_errors svc qs h) <->
  exists i q,
    nth_error qs i = Some q
    /\ search svc (h ++ map search_call (firstn i qs))
              (query q) (language q) 3 = None
    /\ e = searchErrorMessage (language q).
Proof.
  revert h. induction qs as [|q0 qs IH]; intros h.
  - simpl. split; [contradiction|].
    intros ([|i] & q & Hi & _); discriminate.
  - cbn [search_errors]. rewrite in_app_iff, IH. split.
    + intros [Hin | (i & q & Hi & Hs & He)].
      * destruct (search svc h (query q0) (language q0) 3) eqn:Hs;
          simpl in Hin; [contradiction|].
        destruct Hin as [<- | []].
        exists 0%nat, q0. simpl. rewrite app_nil_r. auto.
      * exists (S i), q. cbn [nth_error firstn map].
        rewrite <- app_assoc in Hs. auto.
    + intros ([|i] & q & Hi & Hs & He); simpl in Hi.
      * inversion Hi; subst. simpl in Hs. rewrite app_nil_r in Hs.
        rewrite Hs. left. left. reflexivity.
      * right. exists i, q. cbn [firstn map] in Hs.
        rewrite <- app_assoc. auto.
Qed.

Lemma search_errors_length (svc : Services) (qs : list TranslatedQuery)
  (h : list Call) :
  (List.length (search_errors svc qs h) <= List.length qs)%nat.
Proof.
  revert h. induction qs as [|q qs IH]; intros h; cbn [search_errors].
  - simpl. lia.
  - rewrite length_app. specialize (IH (h ++ [search_call q])).
    destruct (search svc h (query q) (language q) 3); simpl; lia.
Qed.

(** The search stage reports each branch on its own.  A branch whose
    search resolves contributes its hits; a branch whose search fails
    contributes no hit and its message is in [errors]; [errors] holds
    nothing else and at most 2 entries; [totalSearched] counts the hits of
    all branches, repeated links included. *)
Theorem search_branches_reported (svc : Services) (request : NextRequest)
  (r : HuntResult) (log : list Call) :
  POST svc request = (ok r, log) ->
  exists d a locals,
    accepted_desire request = Some d
    /\ analyzeDesire svc [] d = Some a
    /\ hunt svc d = (inr locals, mkWorld r log)
    /\ List.length (l_searchResults locals)
       = List.length (firstn 2 (translatedQueries a))
    /\ (forall i q,
          nth_error (firstn 2 (translatedQueries a)) i = Some q ->
          match search svc
                  (search_history d (firstn 2 (translatedQueries a)) i)
                  (query q) (language q) 3 with
          | Some hits => nth_error (l_searchResults locals) i = Some hits
          | None =>
              nth_error (l_searchResults locals) i = Some []
              /\ In (searchErrorMessage (language q)) (errors r)
          end)
    /\ (forall e,
          In e (errors r) ->
          exists i q,
            nth_error (firstn 2 (translatedQueries a)) i = Some q
            /\ search svc
                 (search_history d (firstn 2 (translatedQueries a)) i)
                 (query q) (language q) 3 = None
            /\ e = searchErrorMessage (language q))
    /\ (List.length (errors r) <= 2)%nat
    /\ totalSearched r = List.length (List.concat (l_searchResults locals)).
Proof.
  intros HP. destruct (POST_ok_run _ _ _ _ HP) as (d & a & Hacc & Ha & Hw).
  pose proof (hunt_run _ _ _ Ha) as Hh. rewrite Hw in Hh.
  destruct (run_result_log _ _ _ _ _ Hw) as [-> ->].
  exists d, a, (run_locals svc d a).
  split; [assumption|]. split; [assumption|]. split; [assumption|].
  change (firstn 2 (translatedQueries a)) with (limitedQueries a).
  change (errors (result (run_world svc d a)))
    with (search_errors svc (limitedQueries a) [CallAnalyze d]).
  change (l_searchResults (run_locals svc d a))
    with (search_outcomes svc (limitedQueries a) [CallAnalyze d]).
  split; [apply search_outcomes_length|]. split.
  { intros i q Hi.
    rewrite (search_outcomes_nth _ _ [CallAnalyze d] _ _ Hi).
    change ([CallAnalyze d] ++ map search_call (firstn i (limitedQueries a)))
      with (search_history d (limitedQueries a) i).
    destruct (search svc (search_history d (limitedQueries a) i)
                (query q) (language q) 3) eqn:Hs; [reflexivity|].
    split; [reflexivity|].
    apply search_errors_In. exists i, q. auto. }
  split.
  { intros e He. apply search_errors_In in He. exact He. }
  split.
  { pose proof (search_errors_length svc (limitedQueries a) [CallAnalyze d]).
    assert ((List.length (limitedQueries a) <= 2)%nat)
      by (unfold limitedQueries, slice0; apply firstn_le_length).
    lia. }
  reflexivity.
Qed.

Lemma search_branches_reported_demo :
  exists d a locals,
    accepted_desire demo_request = Some d
    /\ analyzeDesire services_ja_down [] d = Some a
    /\ hunt services_ja_down d
       = (inr locals,
          mkWorld (mkHuntResult "focus" [alpha] 3 2 ["検索エラー: ja"])
                  (snd (POST services_ja_down demo_request)))
    /\ List.length (l_searchResults locals)
       = List.length (firstn 2 (translatedQueries a)).
Proof.
  destruct (search_branches_reported services_ja_down demo_request
              (mkHuntResult "focus" [alpha] 3 2 ["検索エラー: ja"])
              (snd (POST services_ja_down demo_request)))
    as (d & a & locals & H1 & H2 & H3 & H4 & _).
  - vm_compute. reflexivity.
  - exists d, a, locals. repeat split; assumption.
Defined.

(** Without a single hit nothing is scraped or extracted, and the answer
    is still 200, with no product: all search branches failing, or the
    analysis giving no query, is not an error of the request. *)
Theorem no_hit_no_scrape (svc : Services) (request : NextRequest)
  (r : HuntResult) (log : list Call) :
  POST svc request = (ok r, log) ->
  totalSearched r = 0%nat ->
  products r = []
  /\ totalScraped r = 0%nat
  /\ filter is_scrape log = []
  /\ filter is_extract log = [].
Proof.
  intros HP H0. destruct (POST_ok_run _ _ _ _ HP) as (d & a & Hacc & Ha & Hw).
  destruct (run_result_log _ _ _ _ _ Hw) as [-> ->].
  rewrite run_calls. unfold run_world, run_locals in *. cbn in H0 |- *.
  apply length_zero_iff_nil in H0. rewrite H0. cbn.
  rewrite !filter_app.
  rewrite (search_calls_filter is_scrape false) by reflexivity.
  rewrite (search_calls_filter is_extract false) by reflexivity.
  repeat split.
Qed.

Lemma no_hit_no_scrape_demo :
  POST (table_services (Some demo_analysis) (fun _ => None)
                       demo_pages demo_extracted) demo_request
  = (ok (mkHuntResult "focus" [] 0 0 ["検索エラー: en"; "検索エラー: ja"]),
     [CallAnalyze "focus"; CallSearch "focus aids" "en" 3;
      CallSearch "集中 グッズ" "ja" 3])
  /\ products (mkHuntResult "focus" [] 0 0
                 ["検索エラー: en"; "検索エラー: ja"]) = [].
Proof.
  split; [vm_compute; reflexivity|].
  apply (no_hit_no_scrape
           (table_services (Some demo_analysis) (fun _ => None)
                           demo_pages demo_extracted)
           demo_request _
           [CallAnalyze "focus"; CallSearch "focus aids" "en" 3;
            CallSearch "集中 グッズ" "ja" 3]).
  - vm_compute. reflexivity.
  - reflexivity.
Defined.

(* ================================================================= *)
(** ** Where the returned products come from *)

Lemma scrape_slots_In (svc : Services) (d : string) (urls : list string)
  (h : list Call) (p : Product) :
  In (Some p) (scrape_slots svc d urls h) ->
  exists url h' text,
    In url urls
    /\ scrape svc h' url = Some (Some text)
    /\ extractProduct svc (h' ++ [CallScrape url]) text d = Some p
    /\ In (CallExtract text d) (scrape_calls svc d urls h).
Proof.
  revert h. induction urls as [|url urls IH]; intros h;
    cbn [scrape_slots scrape_calls].
  - contradiction.
  - intros [Hin | Hin].
    + exists url, h. unfold branch_slot in Hin. unfold branch_calls.
      destruct (scrape svc h url) as [[text|]|]; try discriminate.
      destruct (substantial text); [|discriminate].
      exists text. split; [left; reflexivity|]. split; [reflexivity|].
      split; [assumption|]. right. left. reflexivity.
    + destruct (IH _ Hin) as (u & h' & text & Hu & Hs & He & Hc).
      exists u, h', text. split; [right; assumption|].
      split; [assumption|]. split; [assumption|].
      apply in_or_app. right. assumption.
Qed.

Lemma present_In {A} (slots : list (option A)) (x : A) :
  In x (present slots) <-> In (Some x) slots.
Proof.
  induction slots as [|[y|] slots IH]; simpl.
  - tauto.
  - rewrite IH. split; intros [H|H]; auto; left; congruence.
  - rewrite IH. split; [auto|]. intros [H|H]; [discriminate | assumption].
Qed.

(** Every returned product is, unchanged, what [extractProduct] resolved
    to for the text of a scraped candidate, in a call made for this
    request with its desire; there are no more products than candidates. *)
Theorem returned_products_were_extracted (svc : Services)
  (request : NextRequest) (r : HuntResult) (log : list Call) :
  POST svc request = (ok r, log) ->
  exists d,
    accepted_desire request = Some d
    /\ (forall p,
          In p (products r) ->
          exists url h text,
            In (CallScrape url) log
            /\ In (CallExtract text d) log
            /\ scrape svc h url = Some (Some text)
            /\ extractProduct svc (h ++ [CallScrape url]) text d = Some p)
    /\ (List.length (products r) <= totalScraped r)%nat.
Proof.
  intros HP. destruct (POST_ok_run _ _ _ _ HP) as (d & a & Hacc & Ha & Hw).
  destruct (run_result_log _ _ _ _ _ Hw) as [-> ->].
  exists d. split; [assumption|].
  pose proof (final_products_perm _ (run_slots_length svc d a)) as Hperm.
  rewrite <- run_products in Hperm.
  split.
  - intros p Hp.
    apply (Permutation_in _ Hperm) in Hp.
    apply (Subseq_In _ _ p (kept_products_Subseq _)) in Hp.
    apply present_In in Hp.
    apply scrape_slots_In in Hp.
    destruct Hp as (url & h & text & Hu & Hs & He & Hc).
    exists url, h, text. rewrite run_calls.
    split; [|split; [|split; assumption]].
    + right. apply in_or_app. right.
      apply (proj1 (filter_In is_scrape _ _)).
      rewrite scrape_calls_scrapes. apply in_map. assumption.
    + right. apply in_or_app. right. assumption.
  - rewrite (Permutation_length Hperm).
    pose proof (kept_products_length (l_products (run_locals svc d a))) as Hk.
    change (totalScraped (result (run_world svc d a)))
      with (List.length (l_limitedUrls (run_locals svc d a))).
    unfold run_locals in *. cbn in Hk |- *.
    rewrite scrape_slots_length in Hk. exact Hk.
Qed.

Lemma returned_products_were_extracted_demo :
  (List.length (products demo_result) <= totalScraped demo_result)%nat.
Proof.
  destruct (returned_products_were_extracted demo_services demo_request
              demo_result demo_log) as (d & _ & _ & H).
  - vm_compute. reflexivity.
  - exact H.
Defined.



(* ================================================================= *)
(** ** The page *)

Lemma try_body_data (engine : Page.Engine)
  (fetched : Page.Thrown + Page.Response) (data : JsValue) :
  Page.try_body engine fetched = inr data <->
  exists response,
    fetched = inr response
    /\ Page.ok response = true
    /\ Page.json response = inr data.
Proof.
  unfold Page.try_body. split.
  - destruct fetched as [thrown|response]; [discriminate|].
    destruct (Page.ok response) eqn:Hok; simpl.
    + intros H. exists response. repeat split; assumption.
    + destruct (match Page.contentType response with
                | Some ct => negb (String.eqb ct "")
                             && Page.includes ct "application/json"
                | None => false
                end).
      * destruct (Page.json response) as [t|errorData]; [discriminate|].
        destruct (Page.read_error engine errorData); discriminate.
      * destruct (Page.text response); discriminate.
  - intros (response & -> & Hok & Hj). rewrite Hok. simpl. exact Hj.
Qed.

Lemma includes_not_empty (part : string) :
  Page.includes "" part = true -> part = "".
Proof.
  unfold Page.includes. destruct part; [reflexivity|]. simpl. discriminate.
Qed.



(** Once a submission of a desire that is not blank has finished,
    [isLoading] is false and the typed desire is as it was.  Either the
    response was [ok] and its JSON was read: then it is the result and no
    error is shown.  Or an error message is shown and no result is left,
    not even the one of an earlier submission. *)
Theorem submit_settles (engine : Page.Engine)
  (fetch : NextRequest -> Page.Thrown + Page.Response) (st : Page.State) :
  Page.trim (Page.desire st) <> "" ->
  let st' := fst (Page.handleSubmit engine fetch st) in
  Page.isLoading st' = false
  /\ Page.desire st' = Page.desire st
  /\ ((exists response data,
         fetch (Page.request_of (Page.desire st)) = inr response
         /\ Page.ok response = true
         /\ Page.json response = inr data
         /\ Page.result st' = Page.as_result data
         /\ Page.error st' = None)
      \/ (Page.result st' = None
          /\ (exists message, Page.error st' = Some message)
          /\ ~ exists response data,
                 fetch (Page.request_of (Page.desire st)) = inr response
                 /\ Page.ok response = true
                 /\ Page.json response = inr data)).
Proof.
  intros H. unfold Page.handleSubmit.
  apply String.eqb_neq in H. rewrite H. cbn [fst].
  destruct (Page.try_body engine (fetch (Page.request_of (Page.desire st))))
    as [thrown|data] eqn:E.
  - assert (Hno : ~ exists response data,
                     fetch (Page.request_of (Page.desire st)) = inr response
                     /\ Page.ok response = true
                     /\ Page.json response = inr data).
    { intros (response & data & Hf & Hok & Hj).
      assert (E' : Page.try_body engine
                     (fetch (Page.request_of (Page.desire st))) = inr data)
        by (apply try_body_data; exists response; auto).
      rewrite E in E'. discriminate. }
    destruct thrown as [m|m|]; simpl;
      (split; [reflexivity|]; split; [reflexivity|]; right;
       split; [reflexivity|]; split; [eexists; reflexivity | exact Hno]).
  - apply try_body_data in E. destruct E as (response & Hf & Hok & Hj).
    simpl. split; [reflexivity|]. split; [reflexivity|]. left.
    exists response, data. repeat split; assumption.
Qed.

Lemma submit_settles_demo :
  fst (Page.handleSubmit Page.demo_engine (fun _ => inr Page.gateway_response)
                         (Page.typed "focus"))
  = Page.mkState "focus" false None (Some "Gateway Timeout")
  /\ Page.isLoading
       (fst (Page.handleSubmit Page.demo_engine
               (fun _ => inr Page.data_response) (Page.typed "focus")))
     = false.
Proof.
  split; [vm_compute; reflexivity|].
  apply (submit_settles Page.demo_engine (fun _ => inr Page.data_response)
           (Page.typed "focus")).
  vm_compute. discriminate.
Defined.

(** The error answers of [route.ts] reach the user verbatim: for a response
    that is not [ok], has a JSON content type and a body whose [error] is a
    non-empty string, that string is the error shown.  Both error messages
    of the handler are non-empty. *)
Theorem server_error_is_shown (engine : Page.Engine)
  (fetch : NextRequest -> Page.Thrown + Page.Response) (st : Page.State)
  (response : Page.Response) (ct : string)
  (fields : list (string * JsValue)) (message : string) :
  Page.trim (Page.desire st) <> "" ->
  fetch (Page.request_of (Page.desire st)) = inr response ->
  Page.ok response = false ->
  Page.contentType response = Some ct ->
  Page.includes ct "application/json" = true ->
  Page.json response = inr (JObj fields) ->
  get_property "error" fields = Some (JStr message) ->
  message <> "" ->
  fst (Page.handleSubmit engine fetch st)
  = Page.mkState (Page.desire st) false None (Some message)
  /\ (forall svc request m,
        body (fst (POST svc request)) = ErrorBody m -> m <> "").
Proof.
  intros Hd Hf Hok Hct Hinc Hj Hfield Hm. split.
  - unfold Page.handleSubmit, Page.try_body.
    apply String.eqb_neq in Hd. rewrite Hd, Hf, Hok, Hct, Hinc, Hj.
    assert (Hne : String.eqb ct "" = false).
    { apply String.eqb_neq. intros ->.
      apply includes_not_empty in Hinc. discriminate. }
    rewrite Hne. simpl. rewrite Hfield. simpl.
    apply String.eqb_neq in Hm. rewrite Hm. reflexivity.
  - intros svc request m Hb.
    destruct (accepted_desire request) as [d|] eqn:Hacc.
    + rewrite (POST_accepted _ _ _ Hacc) in Hb.
      destruct (hunt svc d) as [[e|l] w]; simpl in Hb;
        inversion Hb; discriminate.
    + destruct (POST_not_accepted svc _ Hacc) as [E|E];
        rewrite E in Hb; inversion Hb; discriminate.
Qed.

Lemma server_error_is_shown_demo :
  fst (Page.handleSubmit Page.demo_engine
         (fun _ => inr (Page.error_response "内部エラーが発生しました"))
         (Page.typed "focus"))
  = Page.mkState "focus" false None (Some "内部エラーが発生しました").
Proof.
  apply (server_error_is_shown Page.demo_engine
           (fun _ => inr (Page.error_response "内部エラーが発生しました"))
           (Page.typed "focus")
           (Page.error_response "内部エラーが発生しました")
           "application/json; charset=utf-8"
           [("error", JStr "内部エラーが発生しました")]
           "内部エラーが発生しました").
  - vm_compute. discriminate.
  - reflexivity.
  - reflexivity.
  - reflexivity.
  - vm_compute. reflexivity.
  - reflexivity.
  - reflexivity.
  - discriminate.
Defined.

(** When the body of a response cannot be parsed as JSON where the handler
    reads it as JSON (an [ok] response, or an error response with a JSON
    content type), the fixed parse-failure message is shown, whatever the
    status and the text of the response. *)
Theorem unparsable_answer_reported (engine : Page.Engine)
  (fetch : NextRequest -> Page.Thrown + Page.Response) (st : Page.State)
  (response : Page.Response) (m : string) :
  Page.trim (Page.desire st) <> "" ->
  fetch (Page.request_of (Page.desire st)) = inr response ->
  Page.ok response = true
  \/ (exists ct, Page.contentType response = Some ct
                 /\ Page.includes ct "application/json" = true) ->
  Page.json response = inl (Page.SyntaxError m) ->
  fst (Page.handleSubmit engine fetch st)
  = Page.mkState (Page.desire st) false None
                 (Some Page.parse_error_message).
Proof.
  intros Hd Hf Hcase Hj.
  unfold Page.handleSubmit, Page.try_body.
  apply String.eqb_neq in Hd. rewrite Hd, Hf, Hj.
  destruct (Page.ok response); simpl; [reflexivity|].
  destruct Hcase as [Hok | (ct & Hct & Hinc)]; [discriminate|].
  rewrite Hct, Hinc.
  assert (Hne : String.eqb ct "" = false).
  { apply String.eqb_neq. intros ->.
    apply includes_not_empty in Hinc. discriminate. }
  rewrite Hne. reflexivity.
Qed.

Lemma unparsable_answer_reported_demo :
  fst (Page.handleSubmit Page.demo_engine
         (fun _ => inr Page.broken_response) (Page.typed "focus"))
  = Page.mkState "focus" false None (Some Page.parse_error_message).
Proof.
  apply (unparsable_answer_reported Page.demo_engine
           (fun _ => inr Page.broken_response) (Page.typed "focus")
           Page.broken_response "Unexpected token < in JSON at position 0").
  - vm_compute. discriminate.
  - reflexivity.
  - right. exists "application/json". split; [reflexivity|].
    vm_compute. reflexivity.
  - reflexivity.
Defined.



Lemma trim_empty_of_empty (d : string) :
  Page.trim d <> "" -> d <> "".
Proof. intros H ->. apply H. reflexivity. Qed.

(** The page never triggers the 400 answer of the handler: a request it
    sends carries a desire that passes the validation of [route.ts]. *)
Theorem submitted_request_passes_validation (engine : Page.Engine)
  (fetch : NextRequest -> Page.Thrown + Page.Response) (st : Page.State)
  (request : NextRequest) :
  In request (snd (Page.handleSubmit engine fetch st)) ->
  accepted_desire request = Some (Page.desire st)
  /\ forall svc, status (fst (POST svc request)) <> 400%nat.
Proof.
  unfold Page.handleSubmit.
  destruct (String.eqb (Page.trim (Page.desire st)) "") eqn:E; simpl.
  - contradiction.
  - intros [<- | []].
    apply String.eqb_neq, trim_empty_of_empty in E.
    assert (Hacc : accepted_desire (Page.request_of (Page.desire st))
                   = Some (Page.desire st)).
    { unfold accepted_desire, Page.request_of. simpl.
      apply String.eqb_neq in E. rewrite E. reflexivity. }
    split; [exact Hacc|].
    intros svc. rewrite (POST_accepted _ _ _ Hacc).
    destruct (hunt svc (Page.desire st)) as [[e|l] w]; simpl; discriminate.
Qed.

Lemma submitted_request_passes_validation_demo :
  accepted_desire (mkRequest (Some (JObj [("desire", JStr " focus ")])))
  = Some " focus ".
Proof.
  apply (submitted_request_passes_validation Page.demo_engine
           (fun _ => inr Page.data_response) (Page.typed " focus ")
           (mkRequest (Some (JObj [("desire", JStr " focus ")])))).
  vm_compute. left. reflexivity.
Defined.
